(** * Kitchen oven timer (Tiva C): a shallow embedding of [main.c]

    The development follows the source file top to bottom:

    - [Int32]      the two machine integer types the program computes with
                   ([int32_t] ticks and cursors, [uint32_t] hours and minutes);
    - [Time]       [incrementTime], [decrementTime] and [printTime];
    - [Queue]      [MessageQueue], [FrontQueue], [RearQueue], [enqueue] and
                   [dequeue];
    - [Timer]      the body of the [while (1)] loop of [main], the interrupt
                   handlers, and the states reachable from start-up.

    The array [MessageQueue] is a list read and written by index; the
    globals and the locals of [main] are records threaded through the
    functions; the characters sent to UART0 are the strings returned by
    [printTime], collected in order. *)

From Stdlib Require Import ZArith Lia Bool Ascii String.
From stdpp Require Import base list.

Local Open Scope Z_scope.

(** ** Machine integers *)

Module Int32.

Definition INT32_MIN : Z := - 2 ^ 31.
Definition INT32_MAX : Z := 2 ^ 31 - 1.
Definition UINT32_MOD : Z := 2 ^ 32.

(** Values an [int32_t] and a [uint32_t] variable can hold. *)
Definition int32 (z : Z) : Prop := INT32_MIN <= z <= INT32_MAX.
Definition uint32 (z : Z) : Prop := 0 <= z < UINT32_MOD.

(** Two's complement wrap-around of a mathematical result into [int32_t]
    (what the Cortex-M4 does on signed overflow), and reduction modulo
    2^32 into [uint32_t]. *)
Definition wrap_s32 (z : Z) : Z := (z + 2 ^ 31) mod 2 ^ 32 - 2 ^ 31.
Definition wrap_u32 (z : Z) : Z := z mod 2 ^ 32.

Definition add_s32 (a b : Z) : Z := wrap_s32 (a + b).
Definition sub_s32 (a b : Z) : Z := wrap_s32 (a - b).

(** [abs] of <stdlib.h> on an [int].  C gives [abs (INT_MIN)] no meaning;
    here the negation wraps as the other operations do, so
    [abs_s32 INT32_MIN] is [INT32_MIN].  What is stated below about the
    debounce test leaves that one operand out. *)
Definition abs_s32 (a : Z) : Z := if a <? 0 then wrap_s32 (- a) else a.

(** The expression [abs(a - b)] that every timing test of [main] uses. *)
Definition elapsed (a b : Z) : Z := abs_s32 (sub_s32 a b).

(** A [uint32_t] handed to a [%d] conversion is read back as an [int]. *)
Definition as_int (u : Z) : Z := wrap_s32 u.

End Int32.

Import Int32.

(** ** Hours and minutes *)

Module Time.

(** [hh] and [mm] travel together through two pointers; a time is the
    pair [(hh, mm)] of [uint32_t] values. *)
Definition time : Type := (Z * Z)%type.

Definition normalized (t : time) : Prop :=
  0 <= fst t < 24 /\ 0 <= snd t < 60.

Definition midnight : time := (0, 0).

Definition is_zero (t : time) : bool := (fst t =? 0) && (snd t =? 0).

(** [incrementTime(&hh, &mm)] *)
Definition incrementTime (t : time) : time :=
  let '(hh, mm) := t in
  let mm := wrap_u32 (mm + 1) in
  if mm =? 60 then
    let hh := wrap_u32 (hh + 1) in
    let hh := if hh =? 24 then 0 else hh in
    (hh, 0)
  else (hh, mm).

(** [decrementTime(&hh, &mm)] *)
Definition decrementTime (t : time) : time :=
  let '(hh, mm) := t in
  if (hh =? 0) && (mm =? 0) then (hh, mm)
  else if mm =? 0 then (wrap_u32 (hh - 1), 59)
  else (hh, wrap_u32 (mm - 1)).

(** [n] applications of [incrementTime]. *)
Fixpoint increment_n (n : nat) (t : time) : time :=
  match n with
  | O => t
  | S n => increment_n n (incrementTime t)
  end.

(** [n] applications of [decrementTime]. *)
Fixpoint decrement_n (n : nat) (t : time) : time :=
  match n with
  | O => t
  | S n => decrement_n n (decrementTime t)
  end.

(** *** [sprintf] with the conversions [%2d] and [%02d] *)

Definition digit (d : Z) : ascii := ascii_of_N (48 + Z.to_N d).

(** Decimal digits of a non-negative number, most significant first; an
    [int] has at most ten. *)
Fixpoint decimal (fuel : nat) (n : Z) (acc : string) : string :=
  match fuel with
  | O => acc
  | S fuel =>
      let acc := String (digit (n mod 10)) acc in
      if n / 10 =? 0 then acc else decimal fuel (n / 10) acc
  end.

Fixpoint fill (c : ascii) (n : nat) : string :=
  match n with
  | O => EmptyString
  | S n => String c (fill c n)
  end.

(** [%<width>d] when [zero] is [false] (blanks on the left of the sign),
    [%0<width>d] when it is [true] (zeros between sign and digits). *)
Definition format_d (zero : bool) (width : nat) (v : Z) : string :=
  let body := decimal 10 (Z.abs v) EmptyString in
  let sign := if v <? 0 then "-"%string else EmptyString in
  let pad := (width - (String.length sign + String.length body))%nat in
  if zero then (sign ++ fill "0" pad ++ body)%string
  else (fill " " pad ++ sign ++ body)%string.

Definition CR : ascii := ascii_of_N 13.

(** Minutes since midnight, for counting increments. *)
Definition minutes (t : time) : Z := 60 * fst t + snd t.

(** The rendering as the interface description words it: the hour as a
    bare decimal number, a colon, the minute on two digits, a carriage
    return. *)
Definition render_unpadded (hh mm : Z) : string :=
  (decimal 10 hh EmptyString ++ ":"
     ++ String (digit (mm / 10)) (String (digit (mm mod 10)) EmptyString)
     ++ String CR EmptyString)%string.

(** [printTime(hh, mm)]: the characters of
    [sprintf(timeString, "%2d:%02d\r", hh, mm)], which [printString]
    sends one by one. *)
Definition printTime (hh mm : Z) : string :=
  (format_d false 2 (as_int hh) ++ ":" ++ format_d true 2 (as_int mm)
     ++ String CR EmptyString)%string.

End Time.

Import Time.

(** ** The queue of switch presses *)

Module Queue.

Definition MESSAGE_QUEUE_SZ : Z := 50.

Record msgque_t : Type := Msg {
  switchPressed : Z;
  switchPressedTime : Z       (* for debouncing *)
}.

(** [MessageQueue] with its two cursors. *)
Record queue : Type := Q {
  MessageQueue : list msgque_t;
  FrontQueue : Z;
  RearQueue : Z
}.

(** [MessageQueue[i]] and [MessageQueue[i] = m].  The cursors of every
    queue the program builds stay within the array ([wf] below); outside
    it C gives the access no meaning, and the model reads a zero entry and
    writes nothing. *)
Definition read (a : list msgque_t) (i : Z) : msgque_t :=
  if i <? 0 then Msg 0 0 else default (Msg 0 0) (a !! Z.to_nat i).
Definition write (a : list msgque_t) (i : Z) (m : msgque_t) : list msgque_t :=
  if i <? 0 then a else <[Z.to_nat i := m]> a.

(** The statically initialised globals. *)
Definition initial : queue :=
  Q (replicate (Z.to_nat MESSAGE_QUEUE_SZ) (Msg 0 0)) (-1) (-1).

(** [enqueue(switchPressed)], called from [GPIOF_Handler]; [ticks] is
    the value of [CurrentTicks] it reads. *)
Definition enqueue (ticks input : Z) (q : queue) : queue :=
  if RearQueue q =? MESSAGE_QUEUE_SZ - 1 then q
  else
    let '(front, rear) :=
      if (FrontQueue q =? -1) && (RearQueue q =? -1) then (0, 0)
      else (FrontQueue q, add_s32 (RearQueue q) 1) in
    Q (write (MessageQueue q) rear (Msg input ticks)) front rear.

(** [dequeue(&switchPressed, &switchPressedTime)]: the two values left in
    the caller's variables and the queue afterwards.  [stale] is what
    [switchPressedTime] held before the call, which an empty queue leaves
    in place. *)
Definition dequeue (q : queue) (stale : Z) : Z * Z * queue :=
  if (FrontQueue q =? -1) && (RearQueue q =? -1) then (-1, stale, q)
  else
    let m := read (MessageQueue q) (FrontQueue q) in
    let a := write (MessageQueue q) (FrontQueue q) (Msg (-1) (switchPressedTime m)) in
    let '(front, rear) :=
      if FrontQueue q =? RearQueue q then (-1, -1)
      else (add_s32 (FrontQueue q) 1, RearQueue q) in
    (switchPressed m, switchPressedTime m, Q a front rear).

(** *** Reading a queue as the sequence of pending events *)

Definition is_empty (q : queue) : bool :=
  (FrontQueue q =? -1) && (RearQueue q =? -1).

(** Number of events pushed and not yet popped. *)
Definition pending (q : queue) : Z :=
  if is_empty q then 0 else RearQueue q - FrontQueue q + 1.

(** The pending events, oldest first. *)
Definition contents (q : queue) : list msgque_t :=
  take (Z.to_nat (pending q)) (drop (Z.to_nat (FrontQueue q)) (MessageQueue q)).

(** Shape of the queue between any two calls. *)
Definition wf (q : queue) : Prop :=
  length (MessageQueue q) = Z.to_nat MESSAGE_QUEUE_SZ /\
  ((FrontQueue q = -1 /\ RearQueue q = -1) \/
   (0 <= FrontQueue q <= RearQueue q /\ RearQueue q <= MESSAGE_QUEUE_SZ - 1)).

(** Pushing a sequence of events, each with the tick its interrupt saw. *)
Definition push_all (evs : list msgque_t) (q : queue) : queue :=
  foldl (fun q m => enqueue (switchPressedTime m) (switchPressed m) q) q evs.

(** Popping [n] times: the events returned, in the order returned, and
    the queue left. *)
Fixpoint pop_n (n : nat) (q : queue) (stale : Z) : list (Z * Z) * queue :=
  match n with
  | O => ([], q)
  | S n =>
      let '(sp, spt, q) := dequeue q stale in
      let '(rest, q) := pop_n n q spt in
      ((sp, spt) :: rest, q)
  end.

Definition payload (m : msgque_t) : Z * Z :=
  (switchPressed m, switchPressedTime m).

(** Pushes the queue still takes before the rear cursor reaches the last
    slot. *)
Definition room (q : queue) : Z :=
  if is_empty q then MESSAGE_QUEUE_SZ else MESSAGE_QUEUE_SZ - 1 - RearQueue q.

(** Fifty presses of switch 1, one per tick from tick 0 on. *)
Definition fifty_presses : list msgque_t :=
  map (fun k => Msg 1 (Z.of_nat k)) (seq 0 50).

End Queue.

Import Queue.

(** ** The control loop of [main] and the interrupt handlers *)

Module Timer.

(** Current time *)
Definition CURRENT_HH : Z := 12.
Definition CURRENT_MM : Z := 12.

(** Cater for switch bounce *)
Definition DEBOUNCE_TIME : Z := 200.

(** Delays *)
Definition DELAY_TIME_10 : Z := 10000.
Definition DELAY_TIME_15 : Z := 15000.
Definition DELAY_TIME_60 : Z := 60000.

(** States *)
Definition DISPLAY_CLOCK : Z := 0.
Definition DISPLAY_ALARM_INIT : Z := 1.
Definition DISPLAY_ALARM : Z := 2.

(** The globals, the port F data register, the text sent to UART0 so far
    and the locals of [main]; [clock] and [alarm] are the pairs
    [(clockHH, clockMM)] and [(alarmHH, alarmMM)]. *)
Record state : Type := State {
  CurrentTicks : Z;
  messages : queue;
  GPIOF_DATA : Z;
  uart : list string;
  previousClockTicks : Z;
  previousAlarmTicks : Z;
  previousSW1Ticks : Z;
  ledOnTicks : Z;
  switchPressedTime : Z;
  lastSwitch1Processed : Z;
  lastSwitch2Processed : Z;
  displayState : Z;
  clock : time;
  alarm : time
}.

(** Bit 1 of port F drives the red led. *)
Definition RED_LED : Z := Z.shiftl 1 1.
Definition led_is_on (data : Z) : bool := negb (Z.land data RED_LED =? 0).
Definition led_off (data : Z) : Z := Z.land data (wrap_u32 (Z.lnot RED_LED)).
Definition led_on (data : Z) : Z := Z.lor data RED_LED.

Definition led (s : state) : bool := led_is_on (GPIOF_DATA s).

(** Lines 148-169: the switch press left in [switchPressed] once bounces
    are filtered, and the two debounce stamps. *)
Definition debounce (switchPressed switchPressedTime last1 last2 : Z)
  : Z * Z * Z :=
  if switchPressed =? 1 then
    if elapsed switchPressedTime last1 <? DEBOUNCE_TIME
    then (-1, last1, last2)
    else (switchPressed, switchPressedTime, last2)
  else if switchPressed =? 2 then
    if elapsed switchPressedTime last2 <? DEBOUNCE_TIME
    then (-1, last1, last2)
    else (switchPressed, last1, switchPressedTime)
  else (switchPressed, last1, last2).

(** Lines 171-245: what the loop does with the filtered [switchPressed]. *)
Definition dispatch (now switchPressed : Z) (s : state) : state :=
  let data := GPIOF_DATA s in
  let out := uart s in
  let displayState := displayState s in
  let alarm := alarm s in
  let previousAlarmTicks := previousAlarmTicks s in
  let previousSW1Ticks := previousSW1Ticks s in
  let ledOnTicks := ledOnTicks s in
  let '(data, out, displayState, alarm, previousAlarmTicks, previousSW1Ticks, ledOnTicks) :=
    if switchPressed =? 2 then
      let data := led_off data in
      let displayState := DISPLAY_ALARM in
      let alarm := incrementTime alarm in
      let out := out ++ [printTime (fst alarm) (snd alarm)] in
      let previousAlarmTicks := now in
      (data, out, displayState, alarm, previousAlarmTicks, previousSW1Ticks, ledOnTicks)
    else if switchPressed =? 1 then
      if led_is_on data then
        let data := led_off data in
        (data, out, displayState, alarm, previousAlarmTicks, previousSW1Ticks, ledOnTicks)
      else
        let '(displayState, alarm, previousAlarmTicks, previousSW1Ticks) :=
          if is_zero alarm then
            (DISPLAY_ALARM_INIT, alarm, previousAlarmTicks, now)
          else if displayState =? DISPLAY_ALARM then
            let alarm := decrementTime alarm in
            if is_zero alarm then
              (DISPLAY_ALARM_INIT, alarm, previousAlarmTicks, now)
            else
              (displayState, alarm, now, previousSW1Ticks)
          else (displayState, alarm, previousAlarmTicks, previousSW1Ticks) in
        let out := out ++ [printTime (fst alarm) (snd alarm)] in
        (data, out, displayState, alarm, previousAlarmTicks, previousSW1Ticks, ledOnTicks)
    else (* nothing in MessageQueue *)
      let '(displayState, out) :=
        if (displayState =? DISPLAY_ALARM_INIT)
           && (elapsed now previousSW1Ticks >=? DELAY_TIME_10)
        then (DISPLAY_CLOCK, out ++ [printTime (fst (clock s)) (snd (clock s))])
        else (displayState, out) in
      let '(data, out, displayState, alarm, previousAlarmTicks, ledOnTicks) :=
        if (displayState =? DISPLAY_ALARM)
           && (elapsed now previousAlarmTicks >=? DELAY_TIME_60)
        then
          let alarm := decrementTime alarm in
          if is_zero alarm then
            (led_on data, out ++ [printTime (fst (clock s)) (snd (clock s))],
             DISPLAY_CLOCK, alarm, previousAlarmTicks, now)
          else
            (data, out ++ [printTime (fst alarm) (snd alarm)],
             displayState, alarm, now, ledOnTicks)
        else (data, out, displayState, alarm, previousAlarmTicks, ledOnTicks) in
      let data :=
        if led_is_on data then
          if elapsed now ledOnTicks >=? DELAY_TIME_15 then led_off data else data
        else data in
      (data, out, displayState, alarm, previousAlarmTicks, previousSW1Ticks, ledOnTicks)
  in
  {| CurrentTicks := CurrentTicks s;
     messages := messages s;
     GPIOF_DATA := data;
     uart := out;
     previousClockTicks := previousClockTicks s;
     previousAlarmTicks := previousAlarmTicks;
     previousSW1Ticks := previousSW1Ticks;
     ledOnTicks := ledOnTicks;
     switchPressedTime := switchPressedTime s;
     lastSwitch1Processed := lastSwitch1Processed s;
     lastSwitch2Processed := lastSwitch2Processed s;
     displayState := displayState;
     clock := clock s;
     alarm := alarm |}.

(** Lines 247-254: the minute of the wall clock. *)
Definition clock_check (now : Z) (s : state) : state :=
  if elapsed now (previousClockTicks s) >=? DELAY_TIME_60 then
    let clock := incrementTime (clock s) in
    {| CurrentTicks := CurrentTicks s;
       messages := messages s;
       GPIOF_DATA := GPIOF_DATA s;
       uart := if displayState s =? DISPLAY_CLOCK
               then uart s ++ [printTime (fst clock) (snd clock)]
               else uart s;
       previousClockTicks := now;
       previousAlarmTicks := previousAlarmTicks s;
       previousSW1Ticks := previousSW1Ticks s;
       ledOnTicks := ledOnTicks s;
       switchPressedTime := switchPressedTime s;
       lastSwitch1Processed := lastSwitch1Processed s;
       lastSwitch2Processed := lastSwitch2Processed s;
       displayState := displayState s;
       clock := clock;
       alarm := alarm s |}
  else s.

(** Lines 143-169: sample the tick counter, pop one event, filter it.
    Returns [now], the filtered [switchPressed] and the state with the
    queue and the debounce stamps updated. *)
Definition poll (s : state) : Z * Z * state :=
  let now := CurrentTicks s in
  let '(switchPressed, switchPressedTime, q) :=
    dequeue (messages s) (switchPressedTime s) in
  let '(switchPressed, last1, last2) :=
    debounce switchPressed switchPressedTime
             (lastSwitch1Processed s) (lastSwitch2Processed s) in
  (now, switchPressed,
   {| CurrentTicks := CurrentTicks s;
      messages := q;
      GPIOF_DATA := GPIOF_DATA s;
      uart := uart s;
      previousClockTicks := previousClockTicks s;
      previousAlarmTicks := previousAlarmTicks s;
      previousSW1Ticks := previousSW1Ticks s;
      ledOnTicks := ledOnTicks s;
      switchPressedTime := switchPressedTime;
      lastSwitch1Processed := last1;
      lastSwitch2Processed := last2;
      displayState := displayState s;
      clock := clock s;
      alarm := alarm s |}).

(** One pass through the body of [while (1)]. *)
Definition loop_iteration (s : state) : state :=
  let '(now, switchPressed, s) := poll s in
  clock_check now (dispatch now switchPressed s).

(** The switch press the iteration started in [s] acts on: 1 or 2 for an
    accepted press, -1 when the queue is empty or the press is a bounce. *)
Definition accepted (s : state) : Z := snd (fst (poll s)).

(** *** Interrupt handlers *)

Definition with_ticks (t : Z) (s : state) : state :=
  {| CurrentTicks := t;
     messages := messages s;
     GPIOF_DATA := GPIOF_DATA s;
     uart := uart s;
     previousClockTicks := previousClockTicks s;
     previousAlarmTicks := previousAlarmTicks s;
     previousSW1Ticks := previousSW1Ticks s;
     ledOnTicks := ledOnTicks s;
     switchPressedTime := switchPressedTime s;
     lastSwitch1Processed := lastSwitch1Processed s;
     lastSwitch2Processed := lastSwitch2Processed s;
     displayState := displayState s;
     clock := clock s;
     alarm := alarm s |}.

Definition with_messages (q : queue) (s : state) : state :=
  {| CurrentTicks := CurrentTicks s;
     messages := q;
     GPIOF_DATA := GPIOF_DATA s;
     uart := uart s;
     previousClockTicks := previousClockTicks s;
     previousAlarmTicks := previousAlarmTicks s;
     previousSW1Ticks := previousSW1Ticks s;
     ledOnTicks := ledOnTicks s;
     switchPressedTime := switchPressedTime s;
     lastSwitch1Processed := lastSwitch1Processed s;
     lastSwitch2Processed := lastSwitch2Processed s;
     displayState := displayState s;
     clock := clock s;
     alarm := alarm s |}.

(** [SysTick_Handler] *)
Definition SysTick_Handler (s : state) : state :=
  with_ticks (add_s32 (CurrentTicks s) 1) s.

(** [GPIOF_Handler]; [mis] is the masked interrupt status it reads. *)
Definition GPIOF_Handler (mis : Z) (s : state) : state :=
  if negb (Z.land mis 16 =? 0) then          (* SW1 pressed *)
    with_messages (enqueue (CurrentTicks s) 1 (messages s)) s
  else if negb (Z.land mis 1 =? 0) then      (* SW2 pressed *)
    with_messages (enqueue (CurrentTicks s) 2 (messages s)) s
  else s.

(** *** Start-up and reachable states *)

(** The machine when [main] is entered: tick counter at zero, queue
    empty, nothing printed.  [data] is the content of the port F data
    register and [junk] the indeterminate content of the local
    [switchPressedTime]; the other locals are set by [main_start] before
    they are read. *)
Definition power_on (data junk : Z) : state :=
  {| CurrentTicks := 0;
     messages := Queue.initial;
     GPIOF_DATA := data;
     uart := [];
     previousClockTicks := 0;
     previousAlarmTicks := 0;
     previousSW1Ticks := 0;
     ledOnTicks := 0;
     switchPressedTime := junk;
     lastSwitch1Processed := 0;
     lastSwitch2Processed := 0;
     displayState := 0;
     clock := (0, 0);
     alarm := (0, 0) |}.

(** Lines 99-138 of [main], on the globals as the interrupts taken so
    far left them; the reads of [CurrentTicks] at lines 137 and 138 see the
    same tick.  (The line with the clock frequency that precedes the first
    time comes from the vendor library and is left out of [uart].) *)
Definition main_start (s : state) : state :=
  {| CurrentTicks := CurrentTicks s;
     messages := messages s;
     GPIOF_DATA := GPIOF_DATA s;
     uart := uart s ++ [printTime CURRENT_HH CURRENT_MM];
     previousClockTicks := CurrentTicks s;
     previousAlarmTicks := 0;
     previousSW1Ticks := 0;
     ledOnTicks := 0;
     switchPressedTime := switchPressedTime s;
     lastSwitch1Processed := CurrentTicks s;
     lastSwitch2Processed := CurrentTicks s;
     displayState := DISPLAY_CLOCK;
     clock := (CURRENT_HH, CURRENT_MM);
     alarm := (0, 0) |}.

(** An interrupt taken between two iterations of the loop (or before the
    loop starts).  The loop reads [CurrentTicks] and the queue once, at
    the top of the iteration, so an iteration is one step.  A handler that
    preempts [dequeue] between two of its stores is not a step of this
    relation: what is proved over [reachable] below concerns the variables
    that [main] alone writes (display state, clock and alarm times, led bit),
    and what is proved about the queue is about [enqueue], [dequeue] and the
    loop body each run to completion. *)
Inductive interrupt : state -> state -> Prop :=
| int_systick s : interrupt s (SysTick_Handler s)
| int_gpiof mis s : interrupt s (GPIOF_Handler mis s).

Inductive booted : state -> Prop :=
| booted_power_on data junk : booted (power_on data junk)
| booted_interrupt s s' : booted s -> interrupt s s' -> booted s'.

Inductive reachable : state -> Prop :=
| reach_start s : booted s -> reachable (main_start s)
| reach_interrupt s s' : reachable s -> interrupt s s' -> reachable s'
| reach_loop s : reachable s -> reachable (loop_iteration s).

(** [n] ticks of the timer. *)
Fixpoint ticks (n : nat) (s : state) : state :=
  match n with
  | O => s
  | S n => SysTick_Handler (ticks n s)
  end.

(** What every reachable state satisfies: the alarm time is 0:00 unless
    the display counts down, and the led is lit only while the display
    shows the clock. *)
Definition invariant (s : state) : Prop :=
  (displayState s <> DISPLAY_ALARM -> alarm s = midnight) /\
  (led s = true -> displayState s = DISPLAY_CLOCK) /\
  (displayState s = DISPLAY_CLOCK \/ displayState s = DISPLAY_ALARM_INIT \/
   displayState s = DISPLAY_ALARM).

(** [n] iterations of the loop with no interrupt in between. *)
Fixpoint iterations (n : nat) (s : state) : state :=
  match n with
  | O => s
  | S n => iterations n (loop_iteration s)
  end.

(** A pending event as [GPIOF_Handler] pushes it: from switch 1 or
    switch 2, with a tick that fits [int32_t]. *)
Definition event_ok (m : msgque_t) : Prop :=
  (switchPressed m = 1 \/ switchPressed m = 2) /\
  int32 (Queue.switchPressedTime m).

(** Clock and alarm time both normalized. *)
Definition times_normalized (s : state) : Prop :=
  normalized (clock s) /\ normalized (alarm s).

(** The state in which an iteration started in [s] reaches the test of
    line 247. *)
Definition before_clock_check (s : state) : state :=
  dispatch (CurrentTicks s) (accepted s) (snd (poll s)).

(** *** A run of the timer

    Switch 2 is pressed two hundred ticks after start-up and the loop takes
    the press; a minute later the alarm goes off; then either fifteen
    seconds pass, or switch 1 is pressed after three hundred ticks.  The
    long waits are written with the tick counter they end at
    ([ticks_jump] below relates the two). *)
Definition pressed_once : state :=
  GPIOF_Handler 1 (ticks 200 (main_start (power_on 0 0))).
Definition counting_down : state := loop_iteration pressed_once.
Definition alarm_due : state := with_ticks (200 + DELAY_TIME_60) counting_down.
Definition alarm_fired : state := loop_iteration alarm_due.
Definition led_due : state :=
  with_ticks (200 + DELAY_TIME_60 + DELAY_TIME_15) alarm_fired.
Definition silenced : state :=
  GPIOF_Handler 16 (ticks 300 alarm_fired).

(** Fifty ticks after the first press was taken, switch 2 is seen again
    (a bounce), or switch 1 is pressed. *)
Definition bounced : state := GPIOF_Handler 1 (ticks 50 counting_down).

(** Switch 1 is pressed three hundred ticks after start-up (the alarm time
    is 0:00), or three hundred ticks after the first press of switch 2 was
    taken (the alarm time is 0:01); the second press is then taken. *)
Definition arm_pressed : state :=
  GPIOF_Handler 16 (ticks 300 (main_start (power_on 0 0))).
Definition cancel_pressed : state :=
  GPIOF_Handler 16 (ticks 300 counting_down).
Definition armed : state := loop_iteration arm_pressed.
Definition window_over : state :=
  with_ticks (300 + DELAY_TIME_10) armed.


(** Switch 2 is pressed again a minute after the first press was taken,
    so that the press and the minute of the clock fall in one iteration. *)
Definition pressed_on_the_minute : state := GPIOF_Handler 1 alarm_due.

End Timer.

Import Timer.

(** * Properties *)

(** ** Machine integers *)

Section Int32Facts.

Lemma wrap_s32_small z : int32 z -> wrap_s32 z = z.
Proof.
  unfold int32, INT32_MIN, INT32_MAX, wrap_s32. intros H.
  rewrite Z.mod_small; lia.
Qed.

Lemma wrap_s32_range z : int32 (wrap_s32 z).
Proof.
  unfold int32, INT32_MIN, INT32_MAX, wrap_s32.
  pose proof (Z.mod_pos_bound (z + 2 ^ 31) (2 ^ 32)). lia.
Qed.

Lemma wrap_u32_small z : uint32 z -> wrap_u32 z = z.
Proof. unfold uint32, UINT32_MOD, wrap_u32. intros H. rewrite Z.mod_small; lia. Qed.

(** Where the difference of two ticks is representable, [abs(a - b)] is
    the distance between them. *)
Lemma elapsed_exact a b : Z.abs (a - b) <= INT32_MAX -> elapsed a b = Z.abs (a - b).
Proof.
  unfold elapsed, abs_s32, sub_s32, INT32_MAX. intros H.
  rewrite (wrap_s32_small (a - b)) by (unfold int32, INT32_MIN, INT32_MAX; lia).
  destruct (Z.ltb_spec (a - b) 0).
  - rewrite wrap_s32_small by (unfold int32, INT32_MIN, INT32_MAX; lia). lia.
  - lia.
Qed.

(** In particular it is the number of ticks from [b] to a later [a]. *)
Lemma elapsed_since a b : 0 <= a - b <= INT32_MAX -> elapsed a b = a - b.
Proof. intros H. rewrite elapsed_exact; lia. Qed.



Lemma elapsed_range a b : int32 (elapsed a b).
Proof.
  unfold elapsed, abs_s32, sub_s32.
  destruct (Z.ltb_spec (wrap_s32 (a - b)) 0); apply wrap_s32_range.
Qed.

End Int32Facts.

(** ** Hours and minutes *)

Section TimeFacts.

Lemma incrementTime_normalized t : normalized t -> normalized (incrementTime t).
Proof.
  destruct t as [hh mm]. unfold normalized, incrementTime, wrap_u32. simpl.
  intros [Hh Hm].
  rewrite (Z.mod_small (mm + 1)) by lia.
  destruct (Z.eqb_spec (mm + 1) 60); simpl.
  - rewrite (Z.mod_small (hh + 1)) by lia.
    destruct (Z.eqb_spec (hh + 1) 24); simpl; lia.
  - lia.
Qed.

Lemma decrementTime_normalized t : normalized t -> normalized (decrementTime t).
Proof.
  destruct t as [hh mm]. unfold normalized, decrementTime, wrap_u32. simpl.
  intros [Hh Hm].
  destruct (Z.eqb_spec hh 0); destruct (Z.eqb_spec mm 0); simpl;
    try rewrite (Z.mod_small (hh - 1)) by lia;
    try rewrite (Z.mod_small (mm - 1)) by lia; lia.
Qed.

Lemma incrementTime_minutes t :
  normalized t -> minutes (incrementTime t) = (minutes t + 1) mod 1440.
Proof.
  destruct t as [hh mm]. unfold normalized, incrementTime, wrap_u32, minutes. simpl.
  intros [Hh Hm].
  rewrite (Z.mod_small (mm + 1)) by lia.
  destruct (Z.eqb_spec (mm + 1) 60); simpl.
  - rewrite (Z.mod_small (hh + 1)) by lia.
    destruct (Z.eqb_spec (hh + 1) 24); simpl.
    + replace (60 * hh + mm + 1) with 1440 by lia. reflexivity.
    + rewrite Z.mod_small; lia.
  - rewrite Z.mod_small; lia.
Qed.

Lemma minutes_inj t u : normalized t -> normalized u -> minutes t = minutes u -> t = u.
Proof.
  destruct t as [h m], u as [h' m']. unfold normalized, minutes. simpl.
  intros [? ?] [? ?] E. f_equal; lia.
Qed.

Lemma increment_n_minutes n : forall t,
  normalized t ->
  normalized (increment_n n t) /\
  minutes (increment_n n t) = (minutes t + Z.of_nat n) mod 1440.
Proof.
  induction n as [|n IH]; intros t Ht.
  - simpl. split; [assumption|].
    rewrite Z.add_0_r, Z.mod_small; [reflexivity|].
    destruct t as [hh mm]. destruct Ht as [Hh Hmm]. unfold minutes.
    cbn [fst snd] in *. lia.
  - cbn [increment_n].
    destruct (IH (incrementTime t) (incrementTime_normalized t Ht)) as [Hn Hm].
    split; [assumption|].
    rewrite Hm, incrementTime_minutes by assumption.
    rewrite Zplus_mod_idemp_l. f_equal. lia.
Qed.

(** C7: on a normalized time other than 0:00, [incrementTime] undoes
    [decrementTime]; [decrementTime] leaves 0:00 at 0:00, so that at 0:00,
    and only there, the round trip does not come back (it gives 0:01). *)
Theorem increment_decrement_round_trip :
  forall t : time,
    normalized t ->
    (t <> midnight -> incrementTime (decrementTime t) = t) /\
    decrementTime midnight = midnight /\
    (incrementTime (decrementTime t) = t <-> t <> midnight).
Proof.
  intros [hh mm] [Hh Hm]. simpl in Hh, Hm.
  assert (R : (hh, mm) <> midnight -> incrementTime (decrementTime (hh, mm)) = (hh, mm)).
  { intros Hne. unfold decrementTime, incrementTime, wrap_u32.
    destruct (Z.eqb_spec hh 0) as [E0|N0]; destruct (Z.eqb_spec mm 0) as [E1|N1]; simpl.
    - subst. exfalso. apply Hne. reflexivity.
    - rewrite (Z.mod_small (mm - 1)) by lia.
      replace (mm - 1 + 1) with mm by lia. rewrite (Z.mod_small mm) by lia.
      destruct (Z.eqb_spec mm 60); [lia | reflexivity].
    - subst mm. rewrite (Z.mod_small (hh - 1)) by lia.
      change ((59 + 1) mod 2 ^ 32 =? 60) with true. cbv iota.
      replace (hh - 1 + 1) with hh by lia. rewrite (Z.mod_small hh) by lia.
      destruct (Z.eqb_spec hh 24); [lia | reflexivity].
    - rewrite (Z.mod_small (mm - 1)) by lia.
      replace (mm - 1 + 1) with mm by lia. rewrite (Z.mod_small mm) by lia.
      destruct (Z.eqb_spec mm 60); [lia | reflexivity]. }
  split; [exact R|]. split; [reflexivity|].
  split; [|exact R].
  intros E Hmid. rewrite Hmid in E. discriminate E.
Qed.

Lemma increment_decrement_round_trip_witness :
  normalized (7, 0) /\
  ((7, 0) <> midnight -> incrementTime (decrementTime (7, 0)) = (7, 0)) /\
  decrementTime midnight = midnight /\
  (incrementTime (decrementTime (7, 0)) = (7, 0) <-> (7, 0) <> midnight).
Proof.
  assert (N : normalized (7, 0)) by (unfold normalized; simpl; lia).
  split; [exact N | exact (increment_decrement_round_trip (7, 0) N)].
Defined.

(** C8: 1440 increments of a normalized time give the same time back. *)
Theorem increment_full_day :
  forall t : time, normalized t -> increment_n 1440 t = t.
Proof.
  intros t Ht.
  destruct (increment_n_minutes 1440 t Ht) as [Hn Hm].
  apply minutes_inj; [assumption | assumption |].
  rewrite Hm. clear Hn Hm.
  replace (Z.of_nat 1440) with (1 * 1440) by reflexivity.
  rewrite Z.mod_add by lia. apply Z.mod_small.
  destruct t as [hh mm]. destruct Ht as [Hh Hmm]. unfold minutes.
  cbn [fst snd] in *. lia.
Qed.

Lemma increment_full_day_witness :
  normalized (23, 59) /\ increment_n 1440 (23, 59) = (23, 59).
Proof.
  assert (N : normalized (23, 59)) by (unfold normalized; simpl; lia).
  split; [exact N | exact (increment_full_day (23, 59) N)].
Defined.

Lemma below_cases (P : Z -> Prop) (n : nat) :
  (forall k : nat, (k < n)%nat -> P (Z.of_nat k)) ->
  forall z, 0 <= z < Z.of_nat n -> P z.
Proof.
  intros H z Hz. rewrite <- (Z2Nat.id z) by lia. apply H. lia.
Qed.

Lemma format_hours hh :
  0 <= hh < 24 ->
  format_d false 2 (as_int hh) =
  String (if hh <? 10 then " "%char else digit (hh / 10))
         (String (digit (hh mod 10)) EmptyString).
Proof.
  revert hh. apply (below_cases _ 24). intros k Hk.
  do 24 (destruct k as [|k]; [vm_compute; reflexivity|]). lia.
Qed.

Lemma format_minutes mm :
  0 <= mm < 60 ->
  format_d true 2 (as_int mm) =
  String (digit (mm / 10)) (String (digit (mm mod 10)) EmptyString).
Proof.
  revert mm. apply (below_cases _ 60). intros k Hk.
  do 60 (destruct k as [|k]; [vm_compute; reflexivity|]). lia.
Qed.

Lemma decimal_hours hh :
  0 <= hh < 24 ->
  decimal 10 hh EmptyString =
  if hh <? 10 then String (digit (hh mod 10)) EmptyString
  else String (digit (hh / 10)) (String (digit (hh mod 10)) EmptyString).
Proof.
  revert hh. apply (below_cases _ 24). intros k Hk.
  do 24 (destruct k as [|k]; [vm_compute; reflexivity|]). lia.
Qed.

(** C9, as the code has it: for a normalized time [printTime] sends six
    characters: the hour right-aligned on two columns (a blank, then the
    digit, for an hour below 10), a colon, the minute on two digits with a
    leading zero, and a carriage return.  From hour 10 on this is the
    unpadded rendering; below 10 it is the unpadded rendering after one
    blank. *)
Theorem printTime_format :
  forall hh mm : Z,
    normalized (hh, mm) ->
    printTime hh mm =
      String (if hh <? 10 then " "%char else digit (hh / 10))
        (String (digit (hh mod 10))
           (String ":"
              (String (digit (mm / 10))
                 (String (digit (mm mod 10)) (String CR EmptyString))))) /\
    String.length (printTime hh mm) = 6%nat /\
    (10 <= hh -> printTime hh mm = render_unpadded hh mm) /\
    (hh < 10 -> printTime hh mm = String " " (render_unpadded hh mm)).
Proof.
  intros hh mm [Hh Hm]. cbn [fst snd] in Hh, Hm.
  assert (E : printTime hh mm =
      String (if hh <? 10 then " "%char else digit (hh / 10))
        (String (digit (hh mod 10))
           (String ":"
              (String (digit (mm / 10))
                 (String (digit (mm mod 10)) (String CR EmptyString)))))).
  { unfold printTime. rewrite (format_hours hh Hh), (format_minutes mm Hm).
    reflexivity. }
  split; [exact E|]. split; [rewrite E; reflexivity|].
  unfold render_unpadded. rewrite (decimal_hours hh Hh), E.
  split; intros Hc.
  - destruct (Z.ltb_spec hh 10); [lia | reflexivity].
  - destruct (Z.ltb_spec hh 10); [reflexivity | lia].
Qed.

Lemma printTime_format_witness :
  normalized (0, 1) /\
  printTime 0 1 = String " " (String "0" (String ":" (String "0" (String "1" (String CR EmptyString))))).
Proof.
  assert (N : normalized (0, 1)) by (unfold normalized; simpl; lia).
  split; [exact N | exact (proj1 (printTime_format 0 1 N))].
Defined.

(** C9 as claimed fails: at 0:01 the text sent starts with a blank, which
    the unpadded rendering does not have. *)
Lemma printTime_hour_is_padded :
  normalized (0, 1) /\ printTime 0 1 <> render_unpadded 0 1.
Proof.
  split; [unfold normalized; simpl; lia | vm_compute; discriminate].
Qed.

End TimeFacts.

(** ** The queue *)

Section QueueFacts.

Implicit Types (q : queue) (m : msgque_t) (a l evs : list msgque_t).

Lemma wf_cursors q :
  wf q ->
  (is_empty q = true /\ FrontQueue q = -1 /\ RearQueue q = -1) \/
  (is_empty q = false /\ 0 <= FrontQueue q <= RearQueue q /\ RearQueue q <= 49).
Proof.
  unfold wf, is_empty, MESSAGE_QUEUE_SZ. intros [_ [[F R] | [F R]]].
  - left. rewrite F, R. auto.
  - right. split; [|lia].
    destruct (Z.eqb_spec (FrontQueue q) (-1)); [lia | reflexivity].
Qed.

Lemma wf_length q : wf q -> length (MessageQueue q) = 50%nat.
Proof. intros [L _]. exact L. Qed.

Lemma succ_cursor r : 0 <= r <= 49 -> add_s32 r 1 = r + 1.
Proof.
  intros H. unfold add_s32. apply wrap_s32_small.
  unfold int32, INT32_MIN, INT32_MAX. lia.
Qed.

Lemma contents_empty q : is_empty q = true -> contents q = [].
Proof. unfold contents, pending. intros ->. reflexivity. Qed.

Lemma pending_length q : wf q -> Z.of_nat (length (contents q)) = pending q.
Proof.
  intros W. pose proof (wf_length q W) as L.
  destruct (wf_cursors q W) as [[E _] | [E [F R]]].
  - rewrite contents_empty by assumption. unfold pending. rewrite E. reflexivity.
  - unfold contents, pending. rewrite E.
    rewrite length_take, length_drop, L. lia.
Qed.

Lemma wf_enqueue t i q : wf q -> wf (enqueue t i q).
Proof.
  intros W. pose proof (wf_length q W) as L.
  unfold enqueue, MESSAGE_QUEUE_SZ.
  destruct (Z.eqb_spec (RearQueue q) (50 - 1)) as [Full | NotFull]; [assumption|].
  destruct (wf_cursors q W) as [[E _] | [E [F R]]]; unfold is_empty in E; rewrite E.
  - split; simpl.
    + unfold write. simpl. rewrite length_insert. exact L.
    + right. unfold MESSAGE_QUEUE_SZ. lia.
  - rewrite succ_cursor by lia. split; simpl.
    + unfold write. destruct (Z.ltb_spec (RearQueue q + 1) 0); [lia|].
      rewrite length_insert. exact L.
    + right. unfold MESSAGE_QUEUE_SZ. lia.
Qed.

Lemma contents_enqueue t i q :
  wf q -> RearQueue q <> 49 ->
  contents (enqueue t i q) = contents q ++ [Msg i t].
Proof.
  intros W NotFull. pose proof (wf_length q W) as L.
  unfold enqueue, MESSAGE_QUEUE_SZ.
  destruct (Z.eqb_spec (RearQueue q) (50 - 1)) as [Full | _]; [lia|].
  destruct (wf_cursors q W) as [[E _] | [E [F R]]].
  - rewrite (contents_empty q E). unfold is_empty in E. rewrite E.
    destruct (MessageQueue q) as [|x a]; [discriminate L|]. reflexivity.
  - unfold is_empty in E. rewrite E. rewrite succ_cursor by lia.
    unfold contents, pending, is_empty. cbn [FrontQueue RearQueue MessageQueue].
    rewrite E.
    destruct (Z.eqb_spec (RearQueue q + 1) (-1)); [lia|].
    rewrite andb_false_r.
    unfold write. destruct (Z.ltb_spec (RearQueue q + 1) 0); [lia|].
    set (f := Z.to_nat (FrontQueue q)).
    set (k := Z.to_nat (RearQueue q - FrontQueue q + 1)).
    replace (Z.to_nat (RearQueue q + 1 - FrontQueue q + 1)) with (S k) by lia.
    replace (Z.to_nat (RearQueue q + 1)) with (f + k)%nat by lia.
    rewrite drop_insert_ge by lia.
    replace (f + k - f)%nat with k by lia.
    rewrite (take_S_r _ k (Msg i t)).
    + rewrite take_insert_ge by lia. reflexivity.
    + apply list_lookup_insert_eq. rewrite length_drop, L. lia.
Qed.

Lemma slot_enqueue t i q :
  wf q -> RearQueue q <> 49 ->
  read (MessageQueue (enqueue t i q)) (RearQueue (enqueue t i q)) = Msg i t.
Proof.
  intros W NotFull. pose proof (wf_length q W) as L.
  unfold enqueue, MESSAGE_QUEUE_SZ.
  destruct (Z.eqb_spec (RearQueue q) (50 - 1)) as [Full | _]; [lia|].
  destruct (wf_cursors q W) as [[E _] | [E [F R]]]; unfold is_empty in E; rewrite E.
  - destruct (MessageQueue q) as [|x a]; [discriminate L|]. reflexivity.
  - rewrite succ_cursor by lia. cbn [FrontQueue RearQueue MessageQueue].
    unfold read, write. destruct (Z.ltb_spec (RearQueue q + 1) 0); [lia|].
    rewrite list_lookup_insert_eq by lia. reflexivity.
Qed.

Lemma enqueue_full t i q : RearQueue q = 49 -> enqueue t i q = q.
Proof. unfold enqueue, MESSAGE_QUEUE_SZ. intros ->. reflexivity. Qed.

Lemma enqueue_moves_rear t i q :
  RearQueue q <> 49 -> RearQueue (enqueue t i q) <> RearQueue q.
Proof.
  intros NotFull. unfold enqueue, MESSAGE_QUEUE_SZ.
  destruct (Z.eqb_spec (RearQueue q) (50 - 1)) as [Full | _]; [lia|].
  destruct ((FrontQueue q =? -1) && (RearQueue q =? -1)) eqn:E;
    cbn [RearQueue].
  - apply andb_true_iff in E as [_ E]. apply Z.eqb_eq in E. lia.
  - unfold add_s32, wrap_s32.
    pose proof (Z.mod_pos_bound (RearQueue q + 1 + 2 ^ 31) (2 ^ 32)).
    intros C.
    assert (D : (RearQueue q + 1 + 2 ^ 31) mod 2 ^ 32 = RearQueue q + 2 ^ 31) by lia.
    pose proof (Z.div_mod (RearQueue q + 1 + 2 ^ 31) (2 ^ 32)). lia.
Qed.

Lemma dequeue_empty q stale : is_empty q = true -> dequeue q stale = (-1, stale, q).
Proof. unfold dequeue, is_empty. intros ->. reflexivity. Qed.

Lemma dequeue_contents q stale m rest :
  wf q -> contents q = m :: rest ->
  fst (dequeue q stale) = (switchPressed m, Queue.switchPressedTime m) /\
  contents (snd (dequeue q stale)) = rest /\
  wf (snd (dequeue q stale)).
Proof.
  intros W C. pose proof (wf_length q W) as L.
  destruct (wf_cursors q W) as [[E _] | [E [F R]]].
  { rewrite contents_empty in C by assumption. discriminate C. }
  unfold contents, pending in C. rewrite E in C.
  set (f := Z.to_nat (FrontQueue q)) in *.
  assert (Hm : MessageQueue q !! f = Some m).
  { assert (H0 : (m :: rest) !! 0%nat = Some m) by reflexivity.
    rewrite <- C in H0. rewrite lookup_take_lt in H0 by lia.
    rewrite lookup_drop in H0. rewrite Nat.add_0_r in H0. exact H0. }
  rewrite (drop_S _ m f Hm) in C.
  replace (Z.to_nat (RearQueue q - FrontQueue q + 1))
    with (S (Z.to_nat (RearQueue q - FrontQueue q))) in C by lia.
  cbn [take] in C. injection C as C.
  unfold dequeue. unfold is_empty in E. rewrite E.
  unfold read, write. destruct (Z.ltb_spec (FrontQueue q) 0); [lia|].
  fold f. rewrite Hm. cbn [default from_option].
  destruct (Z.eqb_spec (FrontQueue q) (RearQueue q)) as [Last | More].
  - cbn [fst snd]. split; [reflexivity|]. split.
    + rewrite <- C. replace (RearQueue q - FrontQueue q) with 0 by lia. reflexivity.
    + split; cbn [MessageQueue FrontQueue RearQueue].
      * rewrite length_insert. exact L.
      * left. auto.
  - rewrite succ_cursor by lia. cbn [fst snd]. split; [reflexivity|]. split.
    + unfold contents, pending, is_empty. cbn [MessageQueue FrontQueue RearQueue].
      destruct (Z.eqb_spec (FrontQueue q + 1) (-1)); [lia|]. cbn [andb].
      replace (Z.to_nat (FrontQueue q + 1)) with (S f) by lia.
      rewrite drop_insert_lt by lia. rewrite <- C. f_equal. lia.
    + split; cbn [MessageQueue FrontQueue RearQueue].
      * rewrite length_insert. exact L.
      * right. unfold MESSAGE_QUEUE_SZ. lia.
Qed.

Lemma wf_dequeue q stale : wf q -> wf (snd (dequeue q stale)).
Proof.
  intros W. destruct (contents q) as [|m rest] eqn:C.
  - destruct (wf_cursors q W) as [[E _] | [E [F R]]].
    + rewrite dequeue_empty by assumption. exact W.
    + pose proof (pending_length q W) as P. rewrite C in P.
      unfold pending in P. rewrite E in P. simpl in P. lia.
  - apply (dequeue_contents q stale m rest W C).
Qed.

(** Pushing onto a queue whose rear cursor is at the last slot changes
    nothing, however many presses follow. *)
Lemma push_all_full evs : forall q, RearQueue q = 49 -> push_all evs q = q.
Proof.
  induction evs as [|m evs IH]; intros q Full; [reflexivity|].
  unfold push_all in *. cbn [foldl]. rewrite enqueue_full by assumption.
  apply IH. assumption.
Qed.

Lemma push_all_app evs extra q :
  push_all (evs ++ extra) q = push_all extra (push_all evs q).
Proof. unfold push_all. apply foldl_app. Qed.

(** Up to fifty pushes onto an empty queue are all stored, in order, in
    the slots from 0 on. *)
Lemma push_all_fresh evs : forall a,
  length a = 50%nat -> (length evs <= 50)%nat ->
  wf (push_all evs (Q a (-1) (-1))) /\
  contents (push_all evs (Q a (-1) (-1))) = evs /\
  RearQueue (push_all evs (Q a (-1) (-1))) = Z.of_nat (length evs) - 1.
Proof.
  induction evs as [|m evs IH] using rev_ind; intros a La Le.
  - split; [|split; reflexivity].
    split; [exact La | left; auto].
  - rewrite length_app in Le. cbn [length] in Le.
    destruct (IH a La ltac:(lia)) as (W & C & R).
    rewrite push_all_app. unfold push_all at 1 3 5. cbn [foldl].
    set (q := push_all evs (Q a (-1) (-1))) in *.
    assert (NotFull : RearQueue q <> 49) by lia.
    split; [apply wf_enqueue; assumption|]. split.
    + rewrite contents_enqueue by assumption. rewrite C.
      destruct m; reflexivity.
    + pose proof (pending_length _ (wf_enqueue (Queue.switchPressedTime m) (switchPressed m) q W)) as P.
      rewrite contents_enqueue in P by assumption.
      rewrite C in P. rewrite !length_app in *. cbn [length] in *.
      pose proof (wf_cursors _ (wf_enqueue (Queue.switchPressedTime m) (switchPressed m) q W)) as [[E _] | [E [F Rr]]].
      * unfold pending in P. rewrite E in P. lia.
      * unfold pending in P. rewrite E in P.
        assert (F0 : FrontQueue (enqueue (Queue.switchPressedTime m) (switchPressed m) q) = 0).
        { unfold enqueue, MESSAGE_QUEUE_SZ.
          destruct (Z.eqb_spec (RearQueue q) (50 - 1)); [lia|].
          destruct (wf_cursors q W) as [[Eq _] | [Eq [Fq Rq]]];
            unfold is_empty in Eq; rewrite Eq; cbn [FrontQueue]; [reflexivity|].
          pose proof (pending_length q W) as Pq. rewrite C in Pq.
          unfold pending, is_empty in Pq. rewrite Eq in Pq. lia. }
        lia.
Qed.

(** Popping [n] of the pending events returns them oldest first. *)
Lemma pop_n_contents n : forall q stale,
  wf q -> (n <= length (contents q))%nat ->
  fst (pop_n n q stale) = map payload (take n (contents q)) /\
  contents (snd (pop_n n q stale)) = drop n (contents q) /\
  wf (snd (pop_n n q stale)).
Proof.
  induction n as [|n IH]; intros q stale W Le.
  - cbn [pop_n fst snd]. rewrite take_0, drop_0. auto.
  - destruct (contents q) as [|m rest] eqn:C; [cbn [length] in Le; lia|].
    destruct (dequeue_contents q stale m rest W C) as (D1 & D2 & D3).
    cbn [pop_n]. destruct (dequeue q stale) as [[sp spt] q1].
    cbn [fst snd] in D1, D2, D3. injection D1 as -> ->.
    cbn [length] in Le.
    destruct (IH q1 (Queue.switchPressedTime m) D3 ltac:(rewrite D2; lia)) as (P1 & P2 & P3).
    destruct (pop_n n q1 (Queue.switchPressedTime m)) as [got q2].
    cbn [fst snd] in *. rewrite P1, D2. cbn [take drop map].
    rewrite D2 in P2. split; [reflexivity | split; assumption].
Qed.

(** C5, as the code has it: [enqueue] leaves the queue as it was exactly
    when the rear cursor is at the last slot of the array; a queue with
    fifty pending events is such a queue; in every other queue the event,
    with the tick read, is stored in the slot the rear cursor moves to and
    becomes the newest pending event. *)
Theorem enqueue_dropped_iff_rear_at_end :
  forall (q : queue) (ticks input : Z),
    wf q ->
    (enqueue ticks input q = q <-> RearQueue q = MESSAGE_QUEUE_SZ - 1) /\
    (pending q = MESSAGE_QUEUE_SZ -> RearQueue q = MESSAGE_QUEUE_SZ - 1) /\
    (RearQueue q <> MESSAGE_QUEUE_SZ - 1 ->
       contents (enqueue ticks input q) = contents q ++ [Msg input ticks] /\
       read (MessageQueue (enqueue ticks input q))
            (RearQueue (enqueue ticks input q)) = Msg input ticks /\
       pending (enqueue ticks input q) = pending q + 1).
Proof.
  intros q ticks input W. unfold MESSAGE_QUEUE_SZ.
  change (50 - 1) with 49.
  split; [|split].
  - split.
    + intros E. destruct (Z.eq_dec (RearQueue q) 49) as [|N]; [assumption|].
      exfalso. apply (enqueue_moves_rear ticks input q N). rewrite E. reflexivity.
    + apply enqueue_full.
  - intros P. destruct (wf_cursors q W) as [[E _] | [E [F R]]];
      unfold pending in P; rewrite E in P; lia.
  - intros N. split; [apply contents_enqueue; assumption|].
    split; [apply slot_enqueue; assumption|].
    rewrite <- (pending_length _ (wf_enqueue ticks input q W)).
    rewrite contents_enqueue by assumption.
    rewrite length_app, <- (pending_length q W). cbn [length]. lia.
Qed.

Lemma enqueue_dropped_iff_rear_at_end_witness :
  wf Queue.initial /\
  contents (enqueue 7 2 Queue.initial) = contents Queue.initial ++ [Msg 2 7].
Proof.
  assert (W : wf Queue.initial).
  { split; [reflexivity | left; split; reflexivity]. }
  split; [exact W|].
  apply (enqueue_dropped_iff_rear_at_end Queue.initial 7 2 W).
  discriminate.
Defined.

(** C5 as claimed fails: after fifty pushes and one pop the queue is well
    formed and holds 49 pending events, yet the next push is dropped. *)
Lemma enqueue_dropped_below_capacity :
  wf (snd (dequeue (push_all fifty_presses Queue.initial) 0)) /\
  pending (snd (dequeue (push_all fifty_presses Queue.initial) 0)) = 49 /\
  enqueue 50 2 (snd (dequeue (push_all fifty_presses Queue.initial) 0))
    = snd (dequeue (push_all fifty_presses Queue.initial) 0).
Proof.
  split; [|split].
  - apply wf_dequeue.
    apply (push_all_fresh fifty_presses (MessageQueue Queue.initial)); reflexivity.
  - vm_compute. reflexivity.
  - vm_compute. reflexivity.
Qed.

(** C6: from an empty queue, up to fifty pushes followed by as many pops
    give back the pushed events (switch and tick) in the order pushed, and
    leave the queue empty; once fifty events are stored, further pushes
    change nothing, so fifty pops still give the first fifty; a pop from an
    empty queue answers -1 and leaves the caller's tick and the queue
    alone. *)
Theorem queue_fifo :
  forall (a evs : list msgque_t) (stale : Z),
    length a = Z.to_nat MESSAGE_QUEUE_SZ ->
    ((length evs <= 50)%nat ->
       fst (pop_n (length evs) (push_all evs (Q a (-1) (-1))) stale)
         = map payload evs /\
       is_empty (snd (pop_n (length evs) (push_all evs (Q a (-1) (-1))) stale))
         = true) /\
    (forall extra,
       length evs = 50%nat ->
       push_all (evs ++ extra) (Q a (-1) (-1)) = push_all evs (Q a (-1) (-1)) /\
       contents (push_all (evs ++ extra) (Q a (-1) (-1))) = evs /\
       fst (pop_n 50 (push_all (evs ++ extra) (Q a (-1) (-1))) stale)
         = map payload evs) /\
    (forall q, is_empty q = true -> dequeue q stale = (-1, stale, q)).
Proof.
  intros a evs stale La. change (Z.to_nat MESSAGE_QUEUE_SZ) with 50%nat in La.
  assert (Pop : (length evs <= 50)%nat ->
       fst (pop_n (length evs) (push_all evs (Q a (-1) (-1))) stale)
         = map payload evs /\
       is_empty (snd (pop_n (length evs) (push_all evs (Q a (-1) (-1))) stale))
         = true).
  { intros Le. destruct (push_all_fresh evs a La Le) as (W & C & _).
    destruct (pop_n_contents (length evs) _ stale W ltac:(rewrite C; lia))
      as (P1 & P2 & P3).
    rewrite C in P1, P2. rewrite firstn_all in P1. split; [exact P1|].
    rewrite drop_all in P2.
    pose proof (pending_length _ P3) as P. rewrite P2 in P.
    destruct (wf_cursors _ P3) as [[E _] | [E [F R]]]; [exact E|].
    unfold pending in P. rewrite E in P. cbn [length] in P. lia. }
  split; [exact Pop|]. split; [|intros q; apply dequeue_empty].
  intros extra L50.
  destruct (push_all_fresh evs a La ltac:(lia)) as (W & C & R).
  assert (E : push_all (evs ++ extra) (Q a (-1) (-1)) = push_all evs (Q a (-1) (-1))).
  { rewrite push_all_app. apply push_all_full. rewrite R, L50. reflexivity. }
  rewrite E. split; [reflexivity|]. split; [exact C|].
  rewrite <- L50. apply Pop. lia.
Qed.

Lemma queue_fifo_witness :
  length (MessageQueue Queue.initial) = Z.to_nat MESSAGE_QUEUE_SZ /\
  fst (pop_n 2 (push_all [Msg 1 10; Msg 2 300] Queue.initial) 0)
    = [(1, 10); (2, 300)].
Proof.
  assert (L : length (MessageQueue Queue.initial) = Z.to_nat MESSAGE_QUEUE_SZ)
    by reflexivity.
  split; [exact L|].
  apply (queue_fifo (MessageQueue Queue.initial) [Msg 1 10; Msg 2 300] 0 L).
  cbn [length]. lia.
Defined.

End QueueFacts.

(** ** The control loop *)

Section TimerFacts.

Implicit Types (s : state).

(** *** The led bit *)

Lemma led_is_on_led_off data : led_is_on (led_off data) = false.
Proof.
  unfold led_is_on, led_off. rewrite <- Z.land_assoc.
  change (Z.land (wrap_u32 (Z.lnot RED_LED)) RED_LED) with 0.
  rewrite Z.land_0_r. reflexivity.
Qed.

Lemma led_is_on_led_on data : led_is_on (led_on data) = true.
Proof.
  unfold led_is_on, led_on. rewrite Z.land_lor_distr_l.
  change (Z.land RED_LED RED_LED) with 2.
  destruct (Z.eqb_spec (Z.lor (Z.land data RED_LED) 2) 0) as [E|]; [|reflexivity].
  apply Z.lor_eq_0_iff in E as [_ E]. discriminate E.
Qed.

(** *** Debouncing *)


(** Anything but 1 and 2 passes the filter untouched. *)
Lemma debounce_other sp t last1 last2 :
  sp <> 1 -> sp <> 2 -> debounce sp t last1 last2 = (sp, last1, last2).
Proof.
  intros N1 N2. unfold debounce.
  destruct (Z.eqb_spec sp 1); [contradiction|].
  destruct (Z.eqb_spec sp 2); [contradiction|]. reflexivity.
Qed.

(** *** The three parts of an iteration *)

Lemma loop_iteration_unfold s :
  loop_iteration s =
  clock_check (CurrentTicks s)
    (dispatch (CurrentTicks s) (accepted s) (snd (poll s))).
Proof.
  unfold loop_iteration, accepted, poll.
  destruct (dequeue (messages s) (switchPressedTime s)) as [[sp spt] q].
  destruct (debounce sp spt (lastSwitch1Processed s) (lastSwitch2Processed s))
    as [[sp' l1] l2].
  reflexivity.
Qed.

(** [poll] touches the queue, [switchPressedTime] and the two stamps. *)
Lemma poll_keeps s :
  CurrentTicks (snd (poll s)) = CurrentTicks s /\
  GPIOF_DATA (snd (poll s)) = GPIOF_DATA s /\
  uart (snd (poll s)) = uart s /\
  previousClockTicks (snd (poll s)) = previousClockTicks s /\
  previousAlarmTicks (snd (poll s)) = previousAlarmTicks s /\
  previousSW1Ticks (snd (poll s)) = previousSW1Ticks s /\
  ledOnTicks (snd (poll s)) = ledOnTicks s /\
  displayState (snd (poll s)) = displayState s /\
  clock (snd (poll s)) = clock s /\
  alarm (snd (poll s)) = alarm s.
Proof.
  unfold poll.
  destruct (dequeue (messages s) (switchPressedTime s)) as [[sp spt] q].
  destruct (debounce sp spt (lastSwitch1Processed s) (lastSwitch2Processed s))
    as [[sp' l1] l2].
  cbn. repeat split.
Qed.

(** The event taken off the queue decides [accepted]. *)
Lemma accepted_front s m rest :
  wf (messages s) -> contents (messages s) = m :: rest ->
  accepted s =
  fst (fst (debounce (switchPressed m) (Queue.switchPressedTime m)
                     (lastSwitch1Processed s) (lastSwitch2Processed s))).
Proof.
  intros W C. unfold accepted, poll.
  destruct (dequeue_contents (messages s) (switchPressedTime s) m rest W C) as (D & _).
  destruct (dequeue (messages s) (switchPressedTime s)) as [[sp spt] q].
  cbn [fst snd] in D. injection D as -> ->.
  destruct (debounce _ _ _ _) as [[sp' l1] l2]. reflexivity.
Qed.

Lemma accepted_empty s : is_empty (messages s) = true -> accepted s = -1.
Proof.
  intros E. unfold accepted, poll. rewrite dequeue_empty by assumption.
  reflexivity.
Qed.

(** What [poll] leaves when the queue holds an event. *)
Lemma poll_front s m rest :
  wf (messages s) -> contents (messages s) = m :: rest ->
  poll s =
  (CurrentTicks s,
   fst (fst (debounce (switchPressed m) (Queue.switchPressedTime m)
                      (lastSwitch1Processed s) (lastSwitch2Processed s))),
   snd (poll s)) /\
  lastSwitch1Processed (snd (poll s)) =
    snd (fst (debounce (switchPressed m) (Queue.switchPressedTime m)
                       (lastSwitch1Processed s) (lastSwitch2Processed s))) /\
  lastSwitch2Processed (snd (poll s)) =
    snd (debounce (switchPressed m) (Queue.switchPressedTime m)
                  (lastSwitch1Processed s) (lastSwitch2Processed s)) /\
  contents (messages (snd (poll s))) = rest /\
  wf (messages (snd (poll s))).
Proof.
  intros W C. unfold poll.
  destruct (dequeue_contents (messages s) (switchPressedTime s) m rest W C)
    as (D & D2 & D3).
  destruct (dequeue (messages s) (switchPressedTime s)) as [[sp spt] q].
  cbn [fst snd] in D, D2, D3. injection D as -> ->.
  destruct (debounce _ _ _ _) as [[sp' l1] l2]. cbn. auto.
Qed.

(** [dispatch] and [clock_check] leave the queue and the stamps alone. *)
Lemma dispatch_keeps now sp s :
  CurrentTicks (dispatch now sp s) = CurrentTicks s /\
  messages (dispatch now sp s) = messages s /\
  previousClockTicks (dispatch now sp s) = previousClockTicks s /\
  switchPressedTime (dispatch now sp s) = switchPressedTime s /\
  lastSwitch1Processed (dispatch now sp s) = lastSwitch1Processed s /\
  lastSwitch2Processed (dispatch now sp s) = lastSwitch2Processed s /\
  clock (dispatch now sp s) = clock s.
Proof.
  unfold dispatch.
  destruct (if sp =? 2 then _ else _) as [[[[[[? ?] ?] ?] ?] ?] ?].
  cbn. repeat split.
Qed.

Lemma clock_check_keeps now s :
  CurrentTicks (clock_check now s) = CurrentTicks s /\
  messages (clock_check now s) = messages s /\
  GPIOF_DATA (clock_check now s) = GPIOF_DATA s /\
  previousAlarmTicks (clock_check now s) = previousAlarmTicks s /\
  previousSW1Ticks (clock_check now s) = previousSW1Ticks s /\
  ledOnTicks (clock_check now s) = ledOnTicks s /\
  switchPressedTime (clock_check now s) = switchPressedTime s /\
  lastSwitch1Processed (clock_check now s) = lastSwitch1Processed s /\
  lastSwitch2Processed (clock_check now s) = lastSwitch2Processed s /\
  displayState (clock_check now s) = displayState s /\
  alarm (clock_check now s) = alarm s.
Proof.
  unfold clock_check.
  destruct (elapsed now (previousClockTicks s) >=? DELAY_TIME_60);
    cbn; repeat split.
Qed.

(** The outcome of [clock_check]. *)
Lemma clock_check_due now s :
  DELAY_TIME_60 <= elapsed now (previousClockTicks s) ->
  clock (clock_check now s) = incrementTime (clock s) /\
  previousClockTicks (clock_check now s) = now /\
  uart (clock_check now s) =
    uart s ++ (if displayState s =? DISPLAY_CLOCK
               then [printTime (fst (incrementTime (clock s)))
                               (snd (incrementTime (clock s)))]
               else []).
Proof.
  intros H. unfold clock_check.
  destruct (Z.geb_spec (elapsed now (previousClockTicks s)) DELAY_TIME_60); [|lia].
  cbn. destruct (displayState s =? DISPLAY_CLOCK);
    rewrite ?app_nil_r; repeat split.
Qed.

Lemma clock_check_not_due now s :
  elapsed now (previousClockTicks s) < DELAY_TIME_60 ->
  clock_check now s = s.
Proof.
  intros H. unfold clock_check.
  destruct (Z.geb_spec (elapsed now (previousClockTicks s)) DELAY_TIME_60);
    [lia | reflexivity].
Qed.



(** *** Case analysis of [dispatch] *)

Ltac fields :=
  cbn [CurrentTicks messages GPIOF_DATA uart previousClockTicks
       previousAlarmTicks previousSW1Ticks ledOnTicks switchPressedTime
       lastSwitch1Processed lastSwitch2Processed displayState clock alarm
       fst snd] in *.

Ltac norm :=
  unfold DISPLAY_CLOCK, DISPLAY_ALARM_INIT, DISPLAY_ALARM in *;
  repeat (progress (cbv beta iota zeta; cbn [Z.eqb Pos.eqb andb]; fields)).

Ltac branch :=
  match goal with
  | |- context [if ?b then _ else _] => destruct b eqn:?
  end; norm.

Lemma is_zero_midnight t : is_zero t = true <-> t = midnight.
Proof.
  destruct t as [hh mm]. unfold is_zero, midnight. cbn [fst snd].
  rewrite andb_true_iff, !Z.eqb_eq. split.
  - intros [-> ->]. reflexivity.
  - intros E. injection E as -> ->. auto.
Qed.

Lemma is_zero_not_midnight t : is_zero t = false <-> t <> midnight.
Proof.
  rewrite <- is_zero_midnight. destruct (is_zero t); split; congruence.
Qed.

Lemma elapsed_now now : elapsed now now = 0.
Proof.
  unfold elapsed, sub_s32. rewrite Z.sub_diag. reflexivity.
Qed.

Lemma dispatch_switch2 now s :
  GPIOF_DATA (dispatch now 2 s) = led_off (GPIOF_DATA s) /\
  displayState (dispatch now 2 s) = DISPLAY_ALARM /\
  alarm (dispatch now 2 s) = incrementTime (alarm s) /\
  uart (dispatch now 2 s) =
    uart s ++ [printTime (fst (incrementTime (alarm s)))
                         (snd (incrementTime (alarm s)))] /\
  previousAlarmTicks (dispatch now 2 s) = now /\
  previousSW1Ticks (dispatch now 2 s) = previousSW1Ticks s /\
  ledOnTicks (dispatch now 2 s) = ledOnTicks s.
Proof. unfold dispatch. cbn [Z.eqb Pos.eqb]. cbv beta iota zeta. fields. repeat split. Qed.

Lemma dispatch_switch1_led_on now s :
  led s = true ->
  GPIOF_DATA (dispatch now 1 s) = led_off (GPIOF_DATA s) /\
  displayState (dispatch now 1 s) = displayState s /\
  alarm (dispatch now 1 s) = alarm s /\
  uart (dispatch now 1 s) = uart s /\
  previousAlarmTicks (dispatch now 1 s) = previousAlarmTicks s /\
  previousSW1Ticks (dispatch now 1 s) = previousSW1Ticks s /\
  ledOnTicks (dispatch now 1 s) = ledOnTicks s.
Proof.
  unfold led. intros H. unfold dispatch. cbn [Z.eqb Pos.eqb]. rewrite H.
  cbv beta iota zeta. fields. repeat split.
Qed.

(** The countdown branch (lines 220-236) with nothing to act on. *)
Lemma dispatch_countdown now sp s :
  sp <> 1 -> sp <> 2 ->
  displayState s = DISPLAY_ALARM ->
  DELAY_TIME_60 <= elapsed now (previousAlarmTicks s) ->
  alarm (dispatch now sp s) = decrementTime (alarm s) /\
  (decrementTime (alarm s) = midnight ->
     displayState (dispatch now sp s) = DISPLAY_CLOCK /\
     led (dispatch now sp s) = true /\
     ledOnTicks (dispatch now sp s) = now /\
     previousAlarmTicks (dispatch now sp s) = previousAlarmTicks s /\
     uart (dispatch now sp s) =
       uart s ++ [printTime (fst (clock s)) (snd (clock s))]) /\
  (decrementTime (alarm s) <> midnight ->
     displayState (dispatch now sp s) = DISPLAY_ALARM /\
     ledOnTicks (dispatch now sp s) = ledOnTicks s /\
     previousAlarmTicks (dispatch now sp s) = now /\
     uart (dispatch now sp s) =
       uart s ++ [printTime (fst (decrementTime (alarm s)))
                            (snd (decrementTime (alarm s)))]).
Proof.
  intros N1 N2 D H. unfold dispatch, led.
  destruct (Z.eqb_spec sp 2); [contradiction|].
  destruct (Z.eqb_spec sp 1); [contradiction|].
  rewrite D.
  destruct (Z.geb_spec (elapsed now (previousAlarmTicks s)) DELAY_TIME_60); [|lia].
  norm.
  destruct (is_zero (decrementTime (alarm s))) eqn:Z0; norm.
  - apply is_zero_midnight in Z0.
    rewrite led_is_on_led_on, elapsed_now.
    change (0 >=? DELAY_TIME_15) with false. norm.
    rewrite led_is_on_led_on.
    split; [reflexivity|]. split; [auto | intros C; contradiction].
  - apply is_zero_not_midnight in Z0.
    split; [reflexivity|].
    split; [intros C; contradiction|]. intros _. auto.
Qed.

(** The led branch (lines 238-244) while the display shows the clock. *)
Lemma dispatch_led_timeout now sp s :
  sp <> 1 -> sp <> 2 ->
  displayState s = DISPLAY_CLOCK ->
  led s = true ->
  led (dispatch now sp s) =
    negb (elapsed now (ledOnTicks s) >=? DELAY_TIME_15) /\
  ledOnTicks (dispatch now sp s) = ledOnTicks s /\
  alarm (dispatch now sp s) = alarm s /\
  displayState (dispatch now sp s) = displayState s /\
  uart (dispatch now sp s) = uart s.
Proof.
  intros N1 N2 D L. unfold led in *. unfold dispatch.
  destruct (Z.eqb_spec sp 2); [contradiction|].
  destruct (Z.eqb_spec sp 1); [contradiction|].
  rewrite D. norm. rewrite L.
  branch; rewrite ?led_is_on_led_off, ?L; auto.
Qed.

(** *** Invariant *)

Ltac to_prop :=
  repeat match goal with
         | H : (_ =? _) = true |- _ => apply Z.eqb_eq in H
         | H : (_ =? _) = false |- _ => apply Z.eqb_neq in H
         | H : (_ && _) = true |- _ => apply andb_true_iff in H as [? ?]
         | H : is_zero _ = true |- _ => apply is_zero_midnight in H
         end.

Lemma dispatch_invariant now sp s : invariant s -> invariant (dispatch now sp s).
Proof.
  unfold invariant, led. intros (A & L & R). unfold dispatch.
  repeat branch; to_prop;
    rewrite ?led_is_on_led_off, ?led_is_on_led_on;
    (split; [intros N | split; [intros O|]]);
    try reflexivity; try assumption; try discriminate; try lia;
    try (apply A; lia); try (apply L; assumption); try congruence.
Qed.

Lemma reachable_invariant s : reachable s -> invariant s.
Proof.
  induction 1 as [s B | s s' R IH I | s R IH].
  - unfold invariant, led. cbn. repeat split; auto.
  - destruct I as [s | mis s]; [exact IH|].
    unfold GPIOF_Handler. repeat branch; exact IH.
  - rewrite loop_iteration_unfold.
    pose proof (poll_keeps s) as (_ & P1 & _ & _ & _ & _ & _ & P2 & _ & P3).
    assert (I1 : invariant (snd (poll s))).
    { unfold invariant, led in *. rewrite P1, P2, P3. exact IH. }
    pose proof (dispatch_invariant (CurrentTicks s) (accepted s) _ I1) as I2.
    pose proof (clock_check_keeps (CurrentTicks s)
                  (dispatch (CurrentTicks s) (accepted s) (snd (poll s))))
      as (_ & _ & C1 & _ & _ & _ & _ & _ & _ & C2 & C3).
    unfold invariant, led in *. rewrite C1, C2, C3. exact I2.
Qed.

Lemma reachable_ticks n s : reachable s -> reachable (ticks n s).
Proof.
  intros R. induction n as [|n IH]; [exact R|].
  cbn [ticks]. eapply reach_interrupt; [exact IH|].
  apply int_systick.
Qed.

(** Ticks add up as long as the counter does not wrap. *)
Lemma ticks_jump n : forall s,
  0 <= CurrentTicks s -> CurrentTicks s + Z.of_nat n <= INT32_MAX ->
  ticks n s = with_ticks (CurrentTicks s + Z.of_nat n) s.
Proof.
  induction n as [|n IH]; intros s Lo Hi.
  - cbn [ticks Z.of_nat]. rewrite Z.add_0_r. destruct s; reflexivity.
  - cbn [ticks]. rewrite IH by lia.
    unfold SysTick_Handler, with_ticks, add_s32. cbn.
    rewrite wrap_s32_small by (unfold int32, INT32_MIN, INT32_MAX in *; lia).
    f_equal. lia.
Qed.

Lemma reachable_pressed_once : reachable pressed_once.
Proof.
  unfold pressed_once. eapply reach_interrupt; [|apply int_gpiof].
  apply reachable_ticks. apply reach_start. apply booted_power_on.
Qed.



Lemma clock_check_uart now s :
  exists more : list string,
    uart (clock_check now s) = uart s ++ more /\
    (displayState s <> DISPLAY_CLOCK -> more = []) /\
    (elapsed now (previousClockTicks s) < DELAY_TIME_60 -> more = []).
Proof.
  unfold clock_check.
  destruct (Z.geb_spec (elapsed now (previousClockTicks s)) DELAY_TIME_60).
  - cbn [uart]. destruct (Z.eqb_spec (displayState s) DISPLAY_CLOCK).
    + eexists. split; [reflexivity|]. split; [contradiction | lia].
    + exists []. rewrite app_nil_r. auto.
  - exists []. rewrite app_nil_r. auto.
Qed.

(** *** The transitions *)

(** C1: an iteration that acts on a press of switch 2 clears the led bit,
    adds one minute to the alarm time, prints the new alarm time and
    nothing else, stores the sampled tick in [previousAlarmTicks] and sets
    the display to [DISPLAY_ALARM], whatever the state it starts from.  From
    the clock display at 12:12 with the alarm at 0:00 this gives
    [DISPLAY_ALARM] with the alarm at 0:01 as the last text printed. *)
Theorem switch2_accepted :
  forall s : state,
    accepted s = 2 ->
    led (loop_iteration s) = false /\
    alarm (loop_iteration s) = incrementTime (alarm s) /\
    uart (loop_iteration s) =
      uart s ++ [printTime (fst (alarm (loop_iteration s)))
                           (snd (alarm (loop_iteration s)))] /\
    previousAlarmTicks (loop_iteration s) = CurrentTicks s /\
    displayState (loop_iteration s) = DISPLAY_ALARM /\
    (displayState s = DISPLAY_CLOCK ->
     clock s = (CURRENT_HH, CURRENT_MM) ->
     alarm s = (0, 0) ->
     displayState (loop_iteration s) = DISPLAY_ALARM /\
     alarm (loop_iteration s) = (0, 1) /\
     last (uart (loop_iteration s)) = Some (printTime 0 1)).
Proof.
  intros s A. rewrite loop_iteration_unfold, A.
  pose proof (poll_keeps s) as (P0 & P1 & P2 & _ & _ & _ & _ & _ & _ & P3).
  pose proof (dispatch_switch2 (CurrentTicks s) (snd (poll s)))
    as (D1 & D2 & D3 & D4 & D5 & _).
  pose proof (clock_check_keeps (CurrentTicks s) (dispatch (CurrentTicks s) 2 (snd (poll s))))
    as (_ & _ & C1 & C2 & _ & _ & _ & _ & _ & C3 & C4).
  destruct (clock_check_uart (CurrentTicks s) (dispatch (CurrentTicks s) 2 (snd (poll s))))
    as (more & U & Unot & _).
  rewrite (Unot ltac:(rewrite D2; discriminate)), app_nil_r in U.
  unfold led. rewrite C1, C2, C3, C4, U, D1, D2, D3, D4, D5, P1, P2, P3.
  rewrite led_is_on_led_off.
  repeat split; try reflexivity.
  - rewrite H1. reflexivity.
  - rewrite H1. cbn [incrementTime]. rewrite last_snoc. reflexivity.
Qed.

Lemma switch2_accepted_witness :
  accepted pressed_once = 2 /\
  displayState (loop_iteration pressed_once) = DISPLAY_ALARM /\
  alarm (loop_iteration pressed_once) = (0, 1).
Proof.
  assert (A : accepted pressed_once = 2) by (vm_compute; reflexivity).
  split; [exact A|].
  destruct (switch2_accepted pressed_once A) as (_ & _ & _ & _ & _ & S).
  destruct S as (S1 & S2 & _); [reflexivity | reflexivity | reflexivity |].
  split; [exact S1 | exact S2].
Defined.

(** C2: with the display counting down, nothing to act on and
    [abs (now - previousAlarmTicks)] at 60000 or more, the alarm time is
    decremented; when that gives 0:00 the display goes back to the clock,
    the clock time is printed, the led bit is set and the sampled tick is
    stored in [ledOnTicks].  From then on, in a reachable state with the led
    lit and nothing to act on, the led bit is cleared as soon as
    [abs (now - ledOnTicks)] is 15000 or more and stays set before; display,
    alarm time and [ledOnTicks] stay.  An iteration that acts on a press of
    switch 1 with the led lit clears the led bit and leaves display, alarm
    time and the three timers of the alarm alone; what else changes is what
    the minute test of the clock changes. *)
Theorem alarm_expiry_and_led :
  forall s : state,
    (displayState s = DISPLAY_ALARM ->
     accepted s <> 1 -> accepted s <> 2 ->
     DELAY_TIME_60 <= elapsed (CurrentTicks s) (previousAlarmTicks s) ->
       alarm (loop_iteration s) = decrementTime (alarm s) /\
       (alarm (loop_iteration s) = midnight ->
          displayState (loop_iteration s) = DISPLAY_CLOCK /\
          led (loop_iteration s) = true /\
          ledOnTicks (loop_iteration s) = CurrentTicks s /\
          exists more : list string,
            uart (loop_iteration s) =
              uart s ++ printTime (fst (clock s)) (snd (clock s)) :: more)) /\
    (reachable s ->
     led s = true ->
     accepted s <> 1 -> accepted s <> 2 ->
       (DELAY_TIME_15 <= elapsed (CurrentTicks s) (ledOnTicks s) ->
          led (loop_iteration s) = false) /\
       (elapsed (CurrentTicks s) (ledOnTicks s) < DELAY_TIME_15 ->
          led (loop_iteration s) = true) /\
       ledOnTicks (loop_iteration s) = ledOnTicks s /\
       displayState (loop_iteration s) = displayState s /\
       alarm (loop_iteration s) = alarm s) /\
    (led s = true ->
     accepted s = 1 ->
       led (loop_iteration s) = false /\
       displayState (loop_iteration s) = displayState s /\
       alarm (loop_iteration s) = alarm s /\
       previousAlarmTicks (loop_iteration s) = previousAlarmTicks s /\
       previousSW1Ticks (loop_iteration s) = previousSW1Ticks s /\
       ledOnTicks (loop_iteration s) = ledOnTicks s /\
       (elapsed (CurrentTicks s) (previousClockTicks s) < DELAY_TIME_60 ->
          uart (loop_iteration s) = uart s /\
          clock (loop_iteration s) = clock s /\
          previousClockTicks (loop_iteration s) = previousClockTicks s)) /\
    (forall since : Z,
       0 <= CurrentTicks s - since <= INT32_MAX ->
       elapsed (CurrentTicks s) since = CurrentTicks s - since).
Proof.
  intros s. pose proof (elapsed_since (CurrentTicks s)) as Since.
  rewrite loop_iteration_unfold.
  pose proof (poll_keeps s) as (P0 & P1 & P2 & P3 & P4 & P5 & P6 & P7 & P8 & P9).
  set (s1 := snd (poll s)) in *.
  set (now := CurrentTicks s) in *.
  pose proof (clock_check_keeps now (dispatch now (accepted s) s1))
    as (_ & _ & C1 & C2 & C3 & C4 & _ & _ & _ & C5 & C6).
  destruct (clock_check_uart now (dispatch now (accepted s) s1))
    as (more & U & _ & Udue).
  unfold led. rewrite C1, C2, C3, C4, C5, C6, U.
  split; [|split; [|split; [|exact Since]]].
  - intros D N1 N2 Due.
    destruct (dispatch_countdown now (accepted s) s1 N1 N2)
      as (A & Z0 & _); [congruence | rewrite P4; exact Due |].
    rewrite A, P9. split; [reflexivity|]. intros M.
    rewrite P9 in Z0. destruct (Z0 M) as (Z1 & Z2 & Z3 & _ & Z4).
    unfold led in Z2. rewrite Z1, Z2, Z3, Z4, P2, P8.
    repeat split. exists more. rewrite <- app_assoc. reflexivity.
  - intros R L N1 N2.
    destruct (reachable_invariant s R) as (_ & I & _).
    destruct (dispatch_led_timeout now (accepted s) s1 N1 N2)
      as (T1 & T2 & T3 & T4 & _).
    { rewrite P7. apply I. exact L. }
    { unfold led. rewrite P1. exact L. }
    unfold led in T1. rewrite T1, T2, T3, T4, P6, P7, P9.
    split; [|split; [|auto]]; intros H.
    + destruct (Z.geb_spec (elapsed now (ledOnTicks s)) DELAY_TIME_15);
        [reflexivity | lia].
    + destruct (Z.geb_spec (elapsed now (ledOnTicks s)) DELAY_TIME_15);
        [lia | reflexivity].
  - intros L A. rewrite A in *.
    destruct (dispatch_switch1_led_on now s1) as (D1 & D2 & D3 & D4 & D5 & D6 & D7).
    { unfold led. rewrite P1. exact L. }
    destruct (dispatch_keeps now 1 s1) as (_ & _ & K1 & _ & _ & _ & K2).
    rewrite D1, D2, D3, D5, D6, D7, led_is_on_led_off, P4, P5, P6, P7, P9.
    do 6 (split; [reflexivity|]). intros NotDue.
    rewrite clock_check_not_due by (rewrite K1, P3; exact NotDue).
    rewrite Udue by (rewrite K1, P3; exact NotDue).
    rewrite ?D4, ?K1, ?K2, ?P2, ?P3, ?P8, ?app_nil_r. auto.
Qed.

Lemma reachable_alarm_due : reachable alarm_due.
Proof.
  assert (E : alarm_due = ticks (Z.to_nat DELAY_TIME_60) counting_down).
  { rewrite ticks_jump.
    - rewrite Z2Nat.id by discriminate. reflexivity.
    - vm_compute. discriminate.
    - rewrite Z2Nat.id by discriminate. vm_compute. discriminate. }
  rewrite E. apply reachable_ticks, reach_loop, reachable_pressed_once.
Qed.

Lemma reachable_alarm_fired : reachable alarm_fired.
Proof. apply reach_loop, reachable_alarm_due. Qed.

Lemma reachable_led_due : reachable led_due.
Proof.
  assert (E : led_due = ticks (Z.to_nat DELAY_TIME_15) alarm_fired).
  { rewrite ticks_jump.
    - rewrite Z2Nat.id by discriminate. reflexivity.
    - vm_compute. discriminate.
    - rewrite Z2Nat.id by discriminate. vm_compute. discriminate. }
  rewrite E. apply reachable_ticks, reachable_alarm_fired.
Qed.

Lemma alarm_expiry_and_led_witness :
  (displayState alarm_due = DISPLAY_ALARM /\
   alarm (loop_iteration alarm_due) = decrementTime (alarm alarm_due)) /\
  (reachable led_due /\ led led_due = true /\
   led (loop_iteration led_due) = false) /\
  (led silenced = true /\ accepted silenced = 1 /\
   led (loop_iteration silenced) = false).
Proof.
  split; [|split].
  - assert (D : displayState alarm_due = DISPLAY_ALARM)
      by (vm_compute; reflexivity).
    assert (N1 : accepted alarm_due <> 1) by (vm_compute; discriminate).
    assert (N2 : accepted alarm_due <> 2) by (vm_compute; discriminate).
    assert (T : DELAY_TIME_60 <=
                elapsed (CurrentTicks alarm_due) (previousAlarmTicks alarm_due))
      by (vm_compute; discriminate).
    destruct (alarm_expiry_and_led alarm_due) as (F & _ & _ & _).
    split; [exact D | exact (proj1 (F D N1 N2 T))].
  - assert (R : reachable led_due) by exact reachable_led_due.
    assert (L : led led_due = true) by (vm_compute; reflexivity).
    assert (N1 : accepted led_due <> 1) by (vm_compute; discriminate).
    assert (N2 : accepted led_due <> 2) by (vm_compute; discriminate).
    assert (T : DELAY_TIME_15 <=
                elapsed (CurrentTicks led_due) (ledOnTicks led_due))
      by (vm_compute; discriminate).
    destruct (alarm_expiry_and_led led_due) as (_ & F & _ & _).
    split; [exact R|]. split; [exact L|].
    exact (proj1 (F R L N1 N2) T).
  - assert (L : led silenced = true) by (vm_compute; reflexivity).
    assert (A : accepted silenced = 1) by (vm_compute; reflexivity).
    destruct (alarm_expiry_and_led silenced) as (_ & _ & F & _).
    split; [exact L|]. split; [exact A|].
    exact (proj1 (F L A)).
Defined.

(** C3: every iteration ends with the minute test of the clock, applied
    to the state the switch handling left, whatever [switchPressed] was.
    The switch handling touches neither the clock time nor
    [previousClockTicks], so the test is on the values the iteration started
    with: at 60000 or more the clock time is incremented,
    [previousClockTicks] becomes the sampled tick, and the new clock time is
    printed exactly when the display shows the clock; below 60000 the test
    changes nothing. *)
Theorem clock_minute_every_iteration :
  forall s : state,
    loop_iteration s = clock_check (CurrentTicks s) (before_clock_check s) /\
    clock (before_clock_check s) = clock s /\
    previousClockTicks (before_clock_check s) = previousClockTicks s /\
    displayState (loop_iteration s) = displayState (before_clock_check s) /\
    (DELAY_TIME_60 <= elapsed (CurrentTicks s) (previousClockTicks s) ->
       clock (loop_iteration s) = incrementTime (clock s) /\
       previousClockTicks (loop_iteration s) = CurrentTicks s /\
       uart (loop_iteration s) =
         uart (before_clock_check s) ++
         (if displayState (loop_iteration s) =? DISPLAY_CLOCK
          then [printTime (fst (clock (loop_iteration s)))
                          (snd (clock (loop_iteration s)))]
          else [])) /\
    (elapsed (CurrentTicks s) (previousClockTicks s) < DELAY_TIME_60 ->
       loop_iteration s = before_clock_check s) /\
    (0 <= CurrentTicks s - previousClockTicks s <= INT32_MAX ->
       elapsed (CurrentTicks s) (previousClockTicks s)
         = CurrentTicks s - previousClockTicks s).
Proof.
  intros s. rewrite loop_iteration_unfold. fold (before_clock_check s).
  pose proof (poll_keeps s) as (_ & _ & _ & P3 & _ & _ & _ & _ & P8 & _).
  destruct (dispatch_keeps (CurrentTicks s) (accepted s) (snd (poll s)))
    as (_ & _ & K1 & _ & _ & _ & K2).
  fold (before_clock_check s) in K1, K2. rewrite P3 in K1. rewrite P8 in K2.
  destruct (clock_check_keeps (CurrentTicks s) (before_clock_check s))
    as (_ & _ & _ & _ & _ & _ & _ & _ & _ & C5 & _).
  split; [reflexivity|]. split; [exact K2|]. split; [exact K1|].
  split; [exact C5|]. split; [|split].
  - intros Due.
    destruct (clock_check_due (CurrentTicks s) (before_clock_check s))
      as (D1 & D2 & D3); [rewrite K1; exact Due|].
    rewrite C5, D1, D2, D3, K2. auto.
  - intros NotDue. apply clock_check_not_due. rewrite K1. exact NotDue.
  - apply elapsed_since.
Qed.

Lemma clock_minute_every_iteration_witness :
  accepted pressed_on_the_minute = 2 /\
  DELAY_TIME_60 <= elapsed (CurrentTicks pressed_on_the_minute)
                           (previousClockTicks pressed_on_the_minute) /\
  clock (loop_iteration pressed_on_the_minute)
    = incrementTime (clock pressed_on_the_minute).
Proof.
  assert (A : accepted pressed_on_the_minute = 2) by (vm_compute; reflexivity).
  assert (T : DELAY_TIME_60 <= elapsed (CurrentTicks pressed_on_the_minute)
                (previousClockTicks pressed_on_the_minute))
    by (vm_compute; discriminate).
  destruct (clock_minute_every_iteration pressed_on_the_minute)
    as (_ & _ & _ & _ & F & _ & _).
  split; [exact A|]. split; [exact T|]. exact (proj1 (F T)).
Defined.

(** C10: in every state reachable from start-up the display is one of the
    three states, and when it is [DISPLAY_CLOCK] or [DISPLAY_ALARM_INIT] the
    alarm time is 0:00, so that an alarm time other than 0:00 goes with
    [DISPLAY_ALARM]; an iteration that leaves [DISPLAY_ALARM] leaves the
    alarm time at 0:00, and an interrupt changes neither. *)
Theorem alarm_zero_unless_counting_down :
  forall s : state,
    reachable s ->
    (displayState s = DISPLAY_CLOCK \/ displayState s = DISPLAY_ALARM_INIT ->
       alarm s = midnight) /\
    (alarm s <> midnight -> displayState s = DISPLAY_ALARM) /\
    (displayState s = DISPLAY_CLOCK \/ displayState s = DISPLAY_ALARM_INIT \/
     displayState s = DISPLAY_ALARM) /\
    (displayState s = DISPLAY_ALARM ->
     displayState (loop_iteration s) <> DISPLAY_ALARM ->
       alarm (loop_iteration s) = midnight) /\
    (forall s', interrupt s s' ->
       displayState s' = displayState s /\ alarm s' = alarm s).
Proof.
  intros s R. destruct (reachable_invariant s R) as (A & _ & D).
  split; [|split; [|split; [exact D|split]]].
  - intros [E | E]; apply A; rewrite E; discriminate.
  - intros N. destruct D as [E | [E | E]]; [| | exact E];
      exfalso; apply N, A; rewrite E; discriminate.
  - intros _ N.
    destruct (reachable_invariant _ (reach_loop s R)) as (A' & _ & _).
    apply A'. exact N.
  - intros s' I. destruct I as [s | mis s]; [split; reflexivity|].
    unfold GPIOF_Handler. repeat branch; split; reflexivity.
Qed.

Lemma alarm_zero_unless_counting_down_witness :
  reachable counting_down /\
  alarm counting_down <> midnight /\
  displayState counting_down = DISPLAY_ALARM.
Proof.
  assert (R : reachable counting_down)
    by (apply reach_loop, reachable_pressed_once).
  assert (N : alarm counting_down <> midnight) by (vm_compute; discriminate).
  destruct (alarm_zero_unless_counting_down counting_down R) as (_ & F & _).
  split; [exact R|]. split; [exact N | exact (F N)].
Defined.

End TimerFacts.

(** * Further properties of the code *)

(** ** Arithmetic on ticks *)

Section TickArithmetic.

Lemma wrap_s32_idem z k : wrap_s32 (wrap_s32 z + k) = wrap_s32 (z + k).
Proof.
  unfold wrap_s32.
  replace ((z + 2 ^ 31) mod 2 ^ 32 - 2 ^ 31 + k + 2 ^ 31)
    with ((z + 2 ^ 31) mod 2 ^ 32 + k) by lia.
  rewrite Zplus_mod_idemp_l. f_equal. f_equal. lia.
Qed.

Lemma wrap_s32_neg x :
  int32 x -> x <> INT32_MIN -> wrap_s32 (- x) = - x.
Proof.
  unfold int32, INT32_MIN, INT32_MAX. intros H N.
  apply wrap_s32_small. unfold int32, INT32_MIN, INT32_MAX. lia.
Qed.

Lemma abs_s32_neg x : int32 x -> abs_s32 (wrap_s32 (- x)) = abs_s32 x.
Proof.
  intros H. destruct (Z.eq_dec x INT32_MIN) as [-> | N]; [reflexivity|].
  rewrite (wrap_s32_neg x H N). unfold abs_s32.
  destruct (Z.ltb_spec (- x) 0); destruct (Z.ltb_spec x 0); try lia.
  - rewrite Z.opp_involutive. apply wrap_s32_small. exact H.
  - symmetry. apply wrap_s32_neg; assumption.
Qed.

Lemma wrap_s32_rep z : exists k, wrap_s32 z = z + k * 2 ^ 32.
Proof.
  exists (- ((z + 2 ^ 31) / 2 ^ 32)). unfold wrap_s32.
  pose proof (Z.div_mod (z + 2 ^ 31) (2 ^ 32)). lia.
Qed.

Lemma wrap_s32_shift z k : wrap_s32 (z + k * 2 ^ 32) = wrap_s32 z.
Proof.
  unfold wrap_s32. replace (z + k * 2 ^ 32 + 2 ^ 31) with (z + 2 ^ 31 + k * 2 ^ 32) by lia.
  rewrite Z_mod_plus_full. reflexivity.
Qed.

(** [abs(a - b)] and [abs(b - a)] are the same number. *)
Lemma elapsed_sym a b : elapsed a b = elapsed b a.
Proof.
  unfold elapsed, sub_s32.
  rewrite <- (abs_s32_neg (wrap_s32 (a - b))) by apply wrap_s32_range.
  f_equal. destruct (wrap_s32_rep (a - b)) as [k ->].
  replace (- (a - b + k * 2 ^ 32)) with (b - a + (- k) * 2 ^ 32) by lia.
  apply wrap_s32_shift.
Qed.

(** [n] ticks move the counter by [n] modulo 2^32. *)
Lemma ticks_counter n : forall s,
  int32 (CurrentTicks s) ->
  CurrentTicks (ticks n s) = wrap_s32 (CurrentTicks s + Z.of_nat n).
Proof.
  induction n as [|n IH]; intros s H.
  - cbn [ticks Z.of_nat]. rewrite Z.add_0_r. symmetry.
    apply wrap_s32_small. exact H.
  - cbn [ticks]. unfold SysTick_Handler at 1. cbn [with_ticks CurrentTicks].
    rewrite IH by assumption. unfold add_s32. rewrite wrap_s32_idem.
    f_equal. lia.
Qed.

(** Ticks change the counter and nothing else. *)
Lemma ticks_frame n s : ticks n s = with_ticks (CurrentTicks (ticks n s)) s.
Proof.
  induction n as [|n IH].
  - destruct s; reflexivity.
  - cbn [ticks]. unfold SysTick_Handler. rewrite IH at 2.
    unfold with_ticks. cbn. reflexivity.
Qed.

(** X1: the timing tests survive the wrap of the tick counter.  After
    [n] ticks of [SysTick_Handler], with [n] at most [INT32_MAX], the
    counter is the old one plus [n] modulo 2^32, nothing else has changed,
    and [abs (new - old)], computed either way round, is [n], also when
    the counter went from [INT32_MAX] to [INT32_MIN] in between. *)
Theorem elapsed_across_wrap :
  forall (s : state) (n : nat),
    int32 (CurrentTicks s) ->
    Z.of_nat n <= INT32_MAX ->
    ticks n s = with_ticks (wrap_s32 (CurrentTicks s + Z.of_nat n)) s /\
    elapsed (CurrentTicks (ticks n s)) (CurrentTicks s) = Z.of_nat n /\
    elapsed (CurrentTicks s) (CurrentTicks (ticks n s)) = Z.of_nat n.
Proof.
  intros s n H Hn.
  assert (E : elapsed (CurrentTicks (ticks n s)) (CurrentTicks s) = Z.of_nat n).
  { rewrite ticks_counter by assumption. unfold elapsed, sub_s32.
    destruct (wrap_s32_rep (CurrentTicks s + Z.of_nat n)) as [k ->].
    replace (CurrentTicks s + Z.of_nat n + k * 2 ^ 32 - CurrentTicks s)
      with (Z.of_nat n + k * 2 ^ 32) by lia.
    rewrite wrap_s32_shift.
    rewrite wrap_s32_small by (unfold int32, INT32_MIN, INT32_MAX in *; lia).
    unfold abs_s32. destruct (Z.ltb_spec (Z.of_nat n) 0); [lia | reflexivity]. }
  split; [|split; [exact E | rewrite elapsed_sym; exact E]].
  rewrite <- ticks_counter by assumption. apply ticks_frame.
Qed.

Lemma elapsed_across_wrap_witness :
  int32 (CurrentTicks (with_ticks (INT32_MAX - 10) (power_on 0 0))) /\
  CurrentTicks (ticks 100 (with_ticks (INT32_MAX - 10) (power_on 0 0)))
    = INT32_MIN + 89 /\
  elapsed (CurrentTicks (ticks 100 (with_ticks (INT32_MAX - 10) (power_on 0 0))))
          (CurrentTicks (with_ticks (INT32_MAX - 10) (power_on 0 0))) = 100.
Proof.
  assert (H : int32 (CurrentTicks (with_ticks (INT32_MAX - 10) (power_on 0 0))))
    by (vm_compute; split; discriminate).
  assert (Hn : Z.of_nat 100 <= INT32_MAX) by (vm_compute; discriminate).
  split; [exact H|]. split; [vm_compute; reflexivity|].
  exact (proj1 (proj2 (elapsed_across_wrap _ 100%nat H Hn))).
Defined.

End TickArithmetic.

(** ** Arithmetic on times *)

Section TimeArithmetic.

Lemma decrementTime_minutes t :
  normalized t -> t <> midnight ->
  minutes (decrementTime t) = minutes t - 1.
Proof.
  destruct t as [hh mm]. unfold normalized, decrementTime, wrap_u32, minutes, midnight.
  cbn [fst snd]. intros [Hh Hm] N.
  destruct (Z.eqb_spec hh 0) as [E0|N0]; destruct (Z.eqb_spec mm 0) as [E1|N1];
    cbn [andb fst snd].
  - subst. exfalso. apply N. reflexivity.
  - rewrite (Z.mod_small (mm - 1)) by lia. lia.
  - rewrite (Z.mod_small (hh - 1)) by lia. lia.
  - rewrite (Z.mod_small (mm - 1)) by lia. lia.
Qed.

Lemma minutes_midnight t : normalized t -> (minutes t = 0 <-> t = midnight).
Proof.
  intros N. split.
  - intros E. apply minutes_inj; [exact N | | exact E].
    unfold normalized, midnight. cbn. lia.
  - intros ->. reflexivity.
Qed.

Lemma minutes_range t : normalized t -> 0 <= minutes t < 1440.
Proof.
  destruct t as [hh mm]. unfold normalized, minutes. cbn [fst snd]. lia.
Qed.

Lemma decrement_n_minutes n : forall t,
  normalized t ->
  normalized (decrement_n n t) /\
  minutes (decrement_n n t) = Z.max 0 (minutes t - Z.of_nat n).
Proof.
  induction n as [|n IH]; intros t N.
  - cbn [decrement_n]. split; [exact N|]. pose proof (minutes_range t N). lia.
  - cbn [decrement_n].
    destruct (IH (decrementTime t) (decrementTime_normalized t N)) as [N' M].
    split; [exact N'|]. rewrite M.
    destruct (is_zero t) eqn:Z0.
    + assert (E : t = midnight).
      { destruct t as [hh mm]. unfold is_zero in Z0. cbn [fst snd] in Z0.
        apply andb_true_iff in Z0 as [A B].
        apply Z.eqb_eq in A, B. subst. reflexivity. }
      subst t. change (decrementTime midnight) with midnight.
      change (minutes midnight) with 0. lia.
    + assert (E : t <> midnight).
      { intros ->. discriminate Z0. }
      rewrite decrementTime_minutes by assumption.
      pose proof (minutes_range t N). lia.
Qed.

(** X2: [decrementTime] undoes [incrementTime] on every normalized time
    but 23:59, where the increment wraps to 0:00 and the decrement stays
    there. *)
Theorem decrement_increment_round_trip :
  forall t : time,
    normalized t ->
    (decrementTime (incrementTime t) = t <-> t <> (23, 59)) /\
    decrementTime (incrementTime (23, 59)) = midnight.
Proof.
  intros t N. split; [|reflexivity].
  pose proof (incrementTime_normalized t N) as N1.
  pose proof (incrementTime_minutes t N) as M1.
  pose proof (minutes_range t N) as R.
  split.
  - intros E Last. subst t. discriminate E.
  - intros NotLast.
    assert (Lt : minutes t < 1439).
    { destruct (Z.eq_dec (minutes t) 1439) as [E|]; [|lia].
      exfalso. apply NotLast. apply minutes_inj; [exact N | | exact E].
      unfold normalized. cbn. lia. }
    rewrite Z.mod_small in M1 by lia.
    apply minutes_inj; [apply decrementTime_normalized; exact N1 | exact N |].
    rewrite decrementTime_minutes; [lia | exact N1 |].
    intros Z0. rewrite Z0 in M1. change (minutes midnight) with 0 in M1. lia.
Qed.

Lemma decrement_increment_round_trip_witness :
  normalized (9, 59) /\ decrementTime (incrementTime (9, 59)) = (9, 59).
Proof.
  assert (N : normalized (9, 59)) by (unfold normalized; cbn; lia).
  split; [exact N|].
  apply (proj1 (decrement_increment_round_trip (9, 59) N)). discriminate.
Defined.

(** X3: [n] increments move a normalized time [n] minutes forward modulo a
    day, and [n] decrements move it [n] minutes back but not below 0:00;
    both keep the time normalized. *)
Theorem increment_decrement_by_minutes :
  forall (t : time) (n : nat),
    normalized t ->
    normalized (increment_n n t) /\
    minutes (increment_n n t) = (minutes t + Z.of_nat n) mod 1440 /\
    normalized (decrement_n n t) /\
    minutes (decrement_n n t) = Z.max 0 (minutes t - Z.of_nat n).
Proof.
  intros t n N.
  destruct (increment_n_minutes n t N) as [A B].
  destruct (decrement_n_minutes n t N) as [C D]. auto.
Qed.

Lemma increment_decrement_by_minutes_witness :
  normalized (23, 30) /\
  minutes (increment_n 45 (23, 30)) = 15 /\
  minutes (decrement_n 45 (0, 30)) = 0.
Proof.
  assert (N : normalized (23, 30)) by (unfold normalized; cbn; lia).
  assert (N' : normalized (0, 30)) by (unfold normalized; cbn; lia).
  split; [exact N|]. split.
  - exact (proj1 (proj2 (increment_decrement_by_minutes (23, 30) 45 N))).
  - exact (proj2 (proj2 (proj2 (increment_decrement_by_minutes (0, 30) 45 N')))).
Defined.

(** X4: a countdown from a normalized time [t] reaches 0:00 after exactly
    as many decrements as [t] has minutes: not before, and it stays at 0:00
    afterwards. *)
Theorem countdown_reaches_midnight :
  forall (t : time) (n : nat),
    normalized t ->
    (decrement_n n t = midnight <-> minutes t <= Z.of_nat n).
Proof.
  intros t n N.
  destruct (decrement_n_minutes n t N) as [N' M].
  rewrite <- (minutes_midnight _ N'). rewrite M. lia.
Qed.

Lemma countdown_reaches_midnight_witness :
  normalized (1, 5) /\
  decrement_n 65 (1, 5) = midnight /\
  decrement_n 64 (1, 5) <> midnight.
Proof.
  assert (N : normalized (1, 5)) by (unfold normalized; cbn; lia).
  split; [exact N|]. split.
  - apply (proj2 (countdown_reaches_midnight (1, 5) 65 N)).
    vm_compute. discriminate.
  - intros E. apply (proj1 (countdown_reaches_midnight (1, 5) 64 N)) in E.
    vm_compute in E. apply E. reflexivity.
Defined.

(** *** The text of a time *)

Lemma printTime_chars hh mm :
  normalized (hh, mm) ->
  printTime hh mm =
    String (if hh <? 10 then " "%char else digit (hh / 10))
      (String (digit (hh mod 10))
         (String ":"
            (String (digit (mm / 10))
               (String (digit (mm mod 10)) (String CR EmptyString))))).
Proof.
  intros [Hh Hm]. cbn [fst snd] in Hh, Hm. unfold printTime.
  rewrite (format_hours hh Hh), (format_minutes mm Hm). reflexivity.
Qed.

Lemma digit_inj a b :
  0 <= a < 10 -> 0 <= b < 10 -> digit a = digit b -> a = b.
Proof.
  revert a.
  apply (below_cases (fun a => 0 <= b < 10 -> digit a = digit b -> a = b) 10).
  intros ka Ha.
  revert b.
  apply (below_cases (fun b => digit (Z.of_nat ka) = digit b -> Z.of_nat ka = b) 10).
  intros kb Hb E.
  do 10 (destruct ka as [|ka]; [
    do 10 (destruct kb as [|kb];
           [first [reflexivity | (vm_compute in E; discriminate E)]|]); lia |]).
  lia.
Qed.

Lemma digit_not_blank d : 0 <= d < 10 -> digit d <> " "%char.
Proof.
  revert d. apply (below_cases _ 10). intros k Hk.
  do 10 (destruct k as [|k]; [vm_compute; discriminate|]). lia.
Qed.

(** X5: two normalized times that [printTime] renders alike are the same
    time, so the text on the display identifies the time shown. *)
Theorem printTime_injective :
  forall hh mm hh' mm' : Z,
    normalized (hh, mm) -> normalized (hh', mm') ->
    printTime hh mm = printTime hh' mm' ->
    (hh, mm) = (hh', mm').
Proof.
  intros hh mm hh' mm' N N' E.
  rewrite (printTime_chars hh mm N), (printTime_chars hh' mm' N') in E.
  destruct N as [Hh Hm], N' as [Hh' Hm']. cbn [fst snd] in *.
  injection E as E1 E2 E3 E4.
  assert (Ones : forall x, 0 <= x mod 10 < 10)
    by (intros x; apply Z.mod_pos_bound; reflexivity).
  assert (Tens : forall x, 0 <= x < 100 -> 0 <= x / 10 < 10).
  { intros x Hx. split; [apply Z.div_pos; lia|].
    apply Z.div_lt_upper_bound; lia. }
  apply digit_inj in E2; [|apply Ones|apply Ones].
  apply digit_inj in E3; [|apply Tens; lia|apply Tens; lia].
  apply digit_inj in E4; [|apply Ones|apply Ones].
  pose proof (Z.div_mod mm 10 ltac:(lia)) as Dm.
  pose proof (Z.div_mod mm' 10 ltac:(lia)) as Dm'.
  pose proof (Z.div_mod hh 10 ltac:(lia)) as Dh.
  pose proof (Z.div_mod hh' 10 ltac:(lia)) as Dh'.
  assert (Em : mm = mm') by congruence.
  assert (Eh : hh = hh').
  { destruct (Z.ltb_spec hh 10); destruct (Z.ltb_spec hh' 10).
    - rewrite <- (Z.mod_small hh 10), <- (Z.mod_small hh' 10) by lia.
      exact E2.
    - exfalso. apply (digit_not_blank (hh' / 10)); [apply Tens; lia | congruence].
    - exfalso. apply (digit_not_blank (hh / 10)); [apply Tens; lia | congruence].
    - apply digit_inj in E1; [|apply Tens; lia|apply Tens; lia]. congruence. }
  congruence.
Qed.

Lemma printTime_injective_witness :
  normalized (1, 23) /\ printTime 1 23 = printTime 1 23 /\
  (printTime 1 23 = printTime 12 3 -> (1, 23) = (12, 3)).
Proof.
  assert (N : normalized (1, 23)) by (unfold normalized; cbn; lia).
  assert (N' : normalized (12, 3)) by (unfold normalized; cbn; lia).
  split; [exact N|]. split; [reflexivity|].
  exact (printTime_injective 1 23 12 3 N N').
Defined.

End TimeArithmetic.

(** ** The queue in general *)

Section QueueOperations.

Implicit Types (q : queue) (m : msgque_t) (evs : list msgque_t).

Lemma pending_range q : wf q -> 0 <= pending q <= 50.
Proof.
  intros W. unfold pending.
  destruct (wf_cursors q W) as [[E _] | [E [F R]]]; rewrite E; lia.
Qed.

Lemma room_range q : wf q -> 0 <= room q <= 50 - pending q.
Proof.
  intros W. unfold room, pending, MESSAGE_QUEUE_SZ.
  destruct (wf_cursors q W) as [[E _] | [E [F R]]]; rewrite E; lia.
Qed.

Lemma room_full q : wf q -> (room q = 0 <-> RearQueue q = 49).
Proof.
  intros W. unfold room, MESSAGE_QUEUE_SZ.
  destruct (wf_cursors q W) as [[E [F R]] | [E [F R]]]; rewrite E; lia.
Qed.

Lemma room_enqueue t i q :
  wf q -> RearQueue q <> 49 -> room (enqueue t i q) = room q - 1.
Proof.
  intros W N. unfold enqueue, MESSAGE_QUEUE_SZ.
  destruct (Z.eqb_spec (RearQueue q) (50 - 1)) as [Full | _]; [lia|].
  unfold room, MESSAGE_QUEUE_SZ.
  destruct (wf_cursors q W) as [[E _] | [E [F R]]]; rewrite E;
    unfold is_empty in E; rewrite E; unfold is_empty; cbn [FrontQueue RearQueue].
  - reflexivity.
  - rewrite succ_cursor by lia.
    destruct (Z.eqb_spec (FrontQueue q) (-1)); [lia|]. cbn [andb]. lia.
Qed.

Lemma push_all_room evs : forall q,
  wf q ->
  wf (push_all evs q) /\
  contents (push_all evs q) = contents q ++ take (Z.to_nat (room q)) evs.
Proof.
  induction evs as [|m evs IH]; intros q W.
  - cbn [push_all foldl]. rewrite take_nil, app_nil_r. auto.
  - destruct (Z.eq_dec (RearQueue q) 49) as [Full | NotFull].
    + rewrite push_all_full by assumption.
      rewrite (proj2 (room_full q W) Full). cbn [Z.to_nat take].
      rewrite app_nil_r. auto.
    + unfold push_all in *. cbn [foldl].
      set (q1 := enqueue (Queue.switchPressedTime m) (switchPressed m) q).
      assert (W1 : wf q1) by (apply wf_enqueue; exact W).
      destruct (IH q1 W1) as [W2 C2]. split; [exact W2|].
      rewrite C2. unfold q1.
      rewrite contents_enqueue, room_enqueue by assumption.
      pose proof (room_range q W) as R.
      assert (room q <> 0) by (rewrite room_full by assumption; exact NotFull).
      replace (Z.to_nat (room q)) with (S (Z.to_nat (room q - 1))) by lia.
      cbn [take]. rewrite <- app_assoc. destruct m; reflexivity.
Qed.

(** X6: on any well-formed queue, whatever its history, [dequeue] hands
    out the oldest pending event (its switch and its tick), leaves the other
    pending events in order in a well-formed queue, and in the array
    overwrites the switch of the slot it read with -1. *)
Theorem dequeue_takes_oldest :
  forall (q : queue) (stale : Z) (m : msgque_t) (rest : list msgque_t),
    wf q ->
    contents q = m :: rest ->
    fst (dequeue q stale) = (switchPressed m, Queue.switchPressedTime m) /\
    contents (snd (dequeue q stale)) = rest /\
    wf (snd (dequeue q stale)) /\
    pending (snd (dequeue q stale)) = pending q - 1 /\
    read (MessageQueue (snd (dequeue q stale))) (FrontQueue q)
      = Msg (-1) (Queue.switchPressedTime m).
Proof.
  intros q stale m rest W C.
  destruct (dequeue_contents q stale m rest W C) as (D1 & D2 & D3).
  split; [exact D1|]. split; [exact D2|]. split; [exact D3|]. split.
  - rewrite <- (pending_length _ D3), <- (pending_length q W), D2, C.
    cbn [length]. lia.
  - pose proof (wf_length q W) as L.
    destruct (wf_cursors q W) as [[E _] | [E [F R]]].
    { rewrite contents_empty in C by assumption. discriminate C. }
    assert (Hm : read (MessageQueue q) (FrontQueue q) = m).
    { unfold contents, pending in C. rewrite E in C.
      assert (H0 : (m :: rest) !! 0%nat = Some m) by reflexivity.
      rewrite <- C in H0. rewrite lookup_take_lt in H0 by lia.
      rewrite lookup_drop, Nat.add_0_r in H0.
      unfold read. destruct (Z.ltb_spec (FrontQueue q) 0); [lia|].
      rewrite H0. reflexivity. }
    unfold dequeue. unfold is_empty in E. rewrite E. rewrite Hm.
    destruct (FrontQueue q =? RearQueue q); cbn [snd MessageQueue];
      unfold read, write; destruct (Z.ltb_spec (FrontQueue q) 0); try lia;
      rewrite list_lookup_insert_eq by lia; reflexivity.
Qed.

Lemma dequeue_takes_oldest_witness :
  wf (push_all [Msg 1 10; Msg 2 300] Queue.initial) /\
  fst (dequeue (push_all [Msg 1 10; Msg 2 300] Queue.initial) 0) = (1, 10) /\
  contents (snd (dequeue (push_all [Msg 1 10; Msg 2 300] Queue.initial) 0))
    = [Msg 2 300].
Proof.
  assert (W : wf (push_all [Msg 1 10; Msg 2 300] Queue.initial)).
  { apply (push_all_fresh [Msg 1 10; Msg 2 300] (MessageQueue Queue.initial));
      [reflexivity | cbn; lia]. }
  assert (C : contents (push_all [Msg 1 10; Msg 2 300] Queue.initial)
              = Msg 1 10 :: [Msg 2 300]) by reflexivity.
  destruct (dequeue_takes_oldest _ 0 _ _ W C) as (A & B & _).
  split; [exact W|]. split; [exact A | exact B].
Defined.

(** X7: pushing a sequence of events onto any well-formed queue stores
    the first [room q] of them behind the pending ones, in order, and drops
    the others; [room q] is 50 for an empty queue and otherwise the number
    of slots behind the rear cursor, which is the free space less the slots
    already popped since the queue was last empty. *)
Theorem push_all_stores_what_fits :
  forall (q : queue) (evs : list msgque_t),
    wf q ->
    wf (push_all evs q) /\
    contents (push_all evs q) = contents q ++ take (Z.to_nat (room q)) evs /\
    (is_empty q = true -> room q = MESSAGE_QUEUE_SZ) /\
    (is_empty q = false ->
       room q = MESSAGE_QUEUE_SZ - pending q - FrontQueue q).
Proof.
  intros q evs W. destruct (push_all_room evs q W) as [W' C].
  split; [exact W'|]. split; [exact C|].
  unfold room, pending. split; intros E; rewrite E; [reflexivity|].
  unfold MESSAGE_QUEUE_SZ. lia.
Qed.

Lemma push_all_stores_what_fits_witness :
  wf (snd (dequeue (push_all fifty_presses Queue.initial) 0)) /\
  room (snd (dequeue (push_all fifty_presses Queue.initial) 0)) = 0 /\
  contents (push_all [Msg 2 60]
              (snd (dequeue (push_all fifty_presses Queue.initial) 0)))
    = contents (snd (dequeue (push_all fifty_presses Queue.initial) 0)) ++ [].
Proof.
  assert (W : wf (snd (dequeue (push_all fifty_presses Queue.initial) 0))).
  { apply wf_dequeue.
    apply (push_all_fresh fifty_presses (MessageQueue Queue.initial)); reflexivity. }
  split; [exact W|]. split; [vm_compute; reflexivity|].
  exact (proj1 (proj2 (push_all_stores_what_fits _ [Msg 2 60] W))).
Defined.

(** X8: popping as many times as events are pending hands them all out,
    oldest first, and puts both cursors back at -1, after which the queue
    takes fifty pushes again. *)
Theorem drain_resets_cursors :
  forall (q : queue) (stale : Z),
    wf q ->
    fst (pop_n (length (contents q)) q stale) = map payload (contents q) /\
    FrontQueue (snd (pop_n (length (contents q)) q stale)) = -1 /\
    RearQueue (snd (pop_n (length (contents q)) q stale)) = -1 /\
    room (snd (pop_n (length (contents q)) q stale)) = MESSAGE_QUEUE_SZ /\
    (forall evs, (length evs <= 50)%nat ->
       contents (push_all evs (snd (pop_n (length (contents q)) q stale))) = evs).
Proof.
  intros q stale W.
  destruct (pop_n_contents (length (contents q)) q stale W (Nat.le_refl _))
    as (P1 & P2 & P3).
  rewrite firstn_all in P1. rewrite drop_all in P2.
  set (q' := snd (pop_n (length (contents q)) q stale)) in *.
  assert (E : is_empty q' = true).
  { pose proof (pending_length q' P3) as P. rewrite P2 in P.
    destruct (wf_cursors q' P3) as [[E _] | [E [F R]]]; [exact E|].
    unfold pending in P. rewrite E in P. cbn [length] in P. lia. }
  destruct (wf_cursors q' P3) as [[_ [F R]] | [E' _]]; [|congruence].
  assert (Rm : room q' = MESSAGE_QUEUE_SZ) by (unfold room; rewrite E; reflexivity).
  split; [exact P1|]. split; [exact F|]. split; [exact R|]. split; [exact Rm|].
  intros evs Le. destruct (push_all_room evs q' P3) as [_ C].
  rewrite C, P2, Rm. cbn [app]. apply take_ge.
  unfold MESSAGE_QUEUE_SZ. lia.
Qed.

Lemma drain_resets_cursors_witness :
  wf (snd (dequeue (push_all fifty_presses Queue.initial) 0)) /\
  RearQueue (snd (dequeue (push_all fifty_presses Queue.initial) 0)) = 49 /\
  RearQueue (snd (pop_n (length (contents (snd (dequeue (push_all fifty_presses Queue.initial) 0))))
                    (snd (dequeue (push_all fifty_presses Queue.initial) 0)) 0)) = -1.
Proof.
  assert (W : wf (snd (dequeue (push_all fifty_presses Queue.initial) 0))).
  { apply wf_dequeue.
    apply (push_all_fresh fifty_presses (MessageQueue Queue.initial)); reflexivity. }
  split; [exact W|]. split; [vm_compute; reflexivity|].
  exact (proj1 (proj2 (proj2 (drain_resets_cursors _ 0 W)))).
Defined.

(** X9: [enqueue] and [dequeue] keep a queue well formed, with the
    cursors inside the array and between 0 and 50 events pending; a push
    adds one pending event or none, a pop removes one or none. *)
Theorem queue_stays_well_formed :
  forall (q : queue) (ticks input stale : Z),
    wf q ->
    wf (enqueue ticks input q) /\
    wf (snd (dequeue q stale)) /\
    0 <= pending q <= MESSAGE_QUEUE_SZ /\
    Z.of_nat (length (contents q)) = pending q /\
    (pending (enqueue ticks input q) = pending q \/
     pending (enqueue ticks input q) = pending q + 1) /\
    (pending (snd (dequeue q stale)) = pending q \/
     pending (snd (dequeue q stale)) = pending q - 1).
Proof.
  intros q ticks input stale W.
  split; [apply wf_enqueue; exact W|].
  split; [apply wf_dequeue; exact W|].
  split; [apply pending_range; exact W|].
  split; [apply pending_length; exact W|]. split.
  - destruct (Z.eq_dec (RearQueue q) 49) as [Full | NotFull].
    + left. rewrite enqueue_full by assumption. reflexivity.
    + right. rewrite <- (pending_length _ (wf_enqueue ticks input q W)).
      rewrite contents_enqueue by assumption.
      rewrite length_app, <- (pending_length q W). cbn [length]. lia.
  - destruct (contents q) as [|m rest] eqn:C.
    + left. destruct (wf_cursors q W) as [[E _] | [E [F R]]].
      * rewrite dequeue_empty by assumption. reflexivity.
      * pose proof (pending_length q W) as P. rewrite C in P.
        unfold pending in P. rewrite E in P. cbn [length] in P. lia.
    + right. destruct (dequeue_contents q stale m rest W C) as (_ & D2 & D3).
      rewrite <- (pending_length _ D3), <- (pending_length q W), D2, C.
      cbn [length]. lia.
Qed.

Lemma queue_stays_well_formed_witness :
  wf Queue.initial /\ wf (enqueue 5 1 Queue.initial) /\
  pending (enqueue 5 1 Queue.initial) = 1.
Proof.
  assert (W : wf Queue.initial).
  { split; [reflexivity | left; split; reflexivity]. }
  split; [exact W|].
  split; [exact (proj1 (queue_stays_well_formed Queue.initial 5 1 0 W))|].
  reflexivity.
Defined.

End QueueOperations.

(** ** The control loop in general *)

Section TimerOperations.

Implicit Types (s : state).

Ltac fields :=
  cbn [CurrentTicks messages GPIOF_DATA uart previousClockTicks
       previousAlarmTicks previousSW1Ticks ledOnTicks switchPressedTime
       lastSwitch1Processed lastSwitch2Processed displayState clock alarm
       fst snd] in *.

Ltac norm :=
  unfold DISPLAY_CLOCK, DISPLAY_ALARM_INIT, DISPLAY_ALARM in *;
  repeat (progress (cbv beta iota zeta; cbn [Z.eqb Pos.eqb andb]; fields)).

Ltac branch :=
  match goal with
  | |- context [if ?b then _ else _] => destruct b eqn:?
  end; norm.

(** *** Data kept in range *)

Lemma printTime_length t :
  normalized t -> String.length (printTime (fst t) (snd t)) = 6%nat.
Proof.
  intros N. rewrite (printTime_chars (fst t) (snd t) N). reflexivity.
Qed.

Lemma dispatch_times now sp s :
  normalized (alarm s) -> normalized (alarm (dispatch now sp s)).
Proof.
  intros Na. unfold dispatch.
  pose proof (incrementTime_normalized _ Na) as Ni.
  pose proof (decrementTime_normalized _ Na) as Nd.
  repeat branch; assumption.
Qed.

Lemma clock_check_times now s :
  normalized (clock s) -> normalized (clock (clock_check now s)).
Proof.
  intros Nc. unfold clock_check.
  pose proof (incrementTime_normalized _ Nc) as Ni.
  repeat branch; assumption.
Qed.

Lemma times_loop s : times_normalized s -> times_normalized (loop_iteration s).
Proof.
  intros [Nc Na]. rewrite loop_iteration_unfold.
  pose proof (poll_keeps s) as (_ & _ & _ & _ & _ & _ & _ & _ & P8 & P9).
  set (s1 := snd (poll s)) in *. set (now := CurrentTicks s) in *.
  destruct (dispatch_keeps now (accepted s) s1) as (_ & _ & _ & _ & _ & _ & K2).
  destruct (clock_check_keeps now (dispatch now (accepted s) s1))
    as (_ & _ & _ & _ & _ & _ & _ & _ & _ & _ & C6).
  split.
  - apply clock_check_times. rewrite K2, P8. exact Nc.
  - rewrite C6. apply dispatch_times. rewrite P9. exact Na.
Qed.

Lemma times_interrupt s s' :
  times_normalized s -> interrupt s s' -> times_normalized s'.
Proof.
  intros N I. destruct I as [s | mis s]; [exact N|].
  unfold GPIOF_Handler. repeat branch; exact N.
Qed.

Lemma times_main_start s : times_normalized (main_start s).
Proof.
  split; unfold normalized, main_start, CURRENT_HH, CURRENT_MM; cbn; lia.
Qed.

(** X10: in every state reachable from start-up the clock time and the
    alarm time, which [main] alone writes, are normalized; [printTime]
    applied to either then gives exactly six characters, which with the
    terminating zero fill [timeString] and do not overrun it. *)
Theorem reachable_times_normalized :
  forall s : state,
    reachable s ->
    normalized (clock s) /\ normalized (alarm s) /\
    String.length (printTime (fst (clock s)) (snd (clock s))) = 6%nat /\
    String.length (printTime (fst (alarm s)) (snd (alarm s))) = 6%nat.
Proof.
  intros s R.
  assert (N : times_normalized s).
  { induction R as [s B | s s' R IH I | s R IH].
    - apply times_main_start.
    - eapply times_interrupt; eassumption.
    - apply times_loop. exact IH. }
  destruct N as [Nc Na].
  split; [exact Nc|]. split; [exact Na|].
  split; apply printTime_length; assumption.
Qed.

Lemma reachable_times_normalized_witness :
  reachable alarm_fired /\ normalized (clock alarm_fired) /\
  normalized (alarm alarm_fired).
Proof.
  destruct (reachable_times_normalized alarm_fired reachable_alarm_fired)
    as (Nc & Na & _).
  split; [exact reachable_alarm_fired|]. split; [exact Nc | exact Na].
Defined.

(** X11: the handler and the loop body each run to completion.  When the
    queue is well formed and its pending events come from switch 1 or 2,
    the iteration finds -1, 1 or 2 in [switchPressed] after the bounce
    filter, so the three branches of the loop are all there is; when it is
    1 or 2, that is the switch of the oldest pending event.  The iteration
    leaves such a queue, and so does [GPIOF_Handler] when the tick counter
    fits [int32_t]. *)
Theorem accepted_values :
  forall s : state,
    wf (messages s) ->
    Forall event_ok (contents (messages s)) ->
    (accepted s = -1 \/ accepted s = 1 \/ accepted s = 2) /\
    (accepted s <> -1 ->
       exists m rest,
         contents (messages s) = m :: rest /\ switchPressed m = accepted s) /\
    Forall event_ok (contents (messages (loop_iteration s))) /\
    (int32 (CurrentTicks s) ->
     forall mis,
       wf (messages (GPIOF_Handler mis s)) /\
       Forall event_ok (contents (messages (GPIOF_Handler mis s)))).
Proof.
  intros s W E.
  assert (Em : contents (messages s) = [] -> is_empty (messages s) = true).
  { intros C. destruct (wf_cursors _ W) as [[Em _] | [Em [Fr Rr]]]; [exact Em|].
    pose proof (pending_length _ W) as P. rewrite C in P.
    unfold pending in P. rewrite Em in P. cbn [length] in P. lia. }
  assert (L : Forall event_ok (contents (messages (loop_iteration s)))).
  { rewrite loop_iteration_unfold.
    destruct (dispatch_keeps (CurrentTicks s) (accepted s) (snd (poll s)))
      as (_ & K1 & _).
    destruct (clock_check_keeps (CurrentTicks s)
                (dispatch (CurrentTicks s) (accepted s) (snd (poll s))))
      as (_ & C1 & _).
    rewrite C1, K1.
    destruct (contents (messages s)) as [|m rest] eqn:C.
    - unfold poll. rewrite dequeue_empty by (apply Em; reflexivity).
      destruct (debounce _ _ _ _) as [[sp' l1] l2]. cbn [snd messages].
      rewrite C. constructor.
    - destruct (poll_front s m rest W C) as (_ & _ & _ & C' & _).
      rewrite C'. inversion E; assumption. }
  assert (G : int32 (CurrentTicks s) ->
     forall mis,
       wf (messages (GPIOF_Handler mis s)) /\
       Forall event_ok (contents (messages (GPIOF_Handler mis s)))).
  { intros T mis.
    assert (Push : forall i, i = 1 \/ i = 2 ->
        wf (enqueue (CurrentTicks s) i (messages s)) /\
        Forall event_ok (contents (enqueue (CurrentTicks s) i (messages s)))).
    { intros i Hi. split; [apply wf_enqueue; exact W|].
      destruct (Z.eq_dec (RearQueue (messages s)) 49) as [Full | NotFull].
      - rewrite enqueue_full by assumption. exact E.
      - rewrite contents_enqueue by assumption. apply Forall_app.
        split; [exact E|]. constructor; [|constructor].
        split; [exact Hi | exact T]. }
    unfold GPIOF_Handler.
    destruct (negb (Z.land mis 16 =? 0)); [apply Push; auto|].
    destruct (negb (Z.land mis 1 =? 0)); [apply Push; auto|].
    split; assumption. }
  destruct (contents (messages s)) as [|m rest] eqn:C.
  - rewrite (accepted_empty s (Em eq_refl)).
    split; [auto|]. split; [intros N; contradiction|]. split; assumption.
  - rewrite (accepted_front s m rest W C).
    inversion E as [|m' rest' [Src _] _]; subst.
    unfold debounce.
    destruct Src as [S1 | S1]; rewrite S1; cbn [Z.eqb Pos.eqb];
      match goal with
      | |- context [if ?b then _ else _] => destruct b
      end; cbn [fst];
      (split; [auto|]);
      (split; [intros N; try contradiction; exists m, rest; auto|]);
      (split; assumption).
Qed.

Lemma accepted_values_witness :
  wf (messages pressed_once) /\
  Forall event_ok (contents (messages pressed_once)) /\
  (accepted pressed_once = -1 \/ accepted pressed_once = 1 \/
   accepted pressed_once = 2).
Proof.
  assert (W : wf (messages pressed_once)).
  { split; [vm_compute; reflexivity|]. right. vm_compute.
    repeat split; discriminate. }
  assert (E : Forall event_ok (contents (messages pressed_once))).
  { change (contents (messages pressed_once)) with [Msg 2 200].
    constructor; [|constructor].
    split; [right; reflexivity | vm_compute; split; discriminate]. }
  split; [exact W|]. split; [exact E|].
  exact (proj1 (accepted_values pressed_once W E)).
Defined.

(** X12: in every reachable state with the led lit, the display shows
    the clock and the alarm time is 0:00: the led is never lit while an
    alarm is being set or counts down. *)
Theorem led_only_with_clock :
  forall s : state,
    reachable s -> led s = true ->
    displayState s = DISPLAY_CLOCK /\ alarm s = midnight.
Proof.
  intros s R L. destruct (reachable_invariant s R) as (A & I & _).
  pose proof (I L) as D. split; [exact D|].
  apply A. rewrite D. discriminate.
Qed.

Lemma led_only_with_clock_witness :
  reachable alarm_fired /\ led alarm_fired = true /\
  displayState alarm_fired = DISPLAY_CLOCK.
Proof.
  assert (L : led alarm_fired = true) by (vm_compute; reflexivity).
  split; [exact reachable_alarm_fired|]. split; [exact L|].
  exact (proj1 (led_only_with_clock alarm_fired reachable_alarm_fired L)).
Defined.

Lemma loop_iteration_queue s :
  wf (messages s) ->
  contents (messages (loop_iteration s)) = tail (contents (messages s)) /\
  wf (messages (loop_iteration s)) /\
  CurrentTicks (loop_iteration s) = CurrentTicks s.
Proof.
  intros W. rewrite loop_iteration_unfold.
  pose proof (poll_keeps s) as (P0 & _).
  destruct (dispatch_keeps (CurrentTicks s) (accepted s) (snd (poll s)))
    as (K0 & K1 & _).
  destruct (clock_check_keeps (CurrentTicks s)
              (dispatch (CurrentTicks s) (accepted s) (snd (poll s))))
    as (C0 & C1 & _).
  rewrite C0, C1, K0, K1, P0.
  destruct (contents (messages s)) as [|m rest] eqn:C.
  - assert (Em : is_empty (messages s) = true).
    { destruct (wf_cursors _ W) as [[Em _] | [Em [Fr Rr]]]; [exact Em|].
      pose proof (pending_length _ W) as P. rewrite C in P.
      unfold pending in P. rewrite Em in P. cbn [length] in P. lia. }
    unfold poll. rewrite dequeue_empty by assumption.
    destruct (debounce _ _ _ _) as [[sp' l1] l2]. cbn [snd messages].
    rewrite C. auto.
  - destruct (poll_front s m rest W C) as (_ & _ & _ & C' & W').
    rewrite C'. auto.
Qed.

(** X13: an iteration takes the oldest pending event off the queue,
    whether it then acts on it or drops it as a bounce, and leaves the
    other events and the tick counter as they are. *)
Theorem iteration_consumes_one_event :
  forall s : state,
    wf (messages s) ->
    contents (messages (loop_iteration s)) = tail (contents (messages s)) /\
    wf (messages (loop_iteration s)) /\
    CurrentTicks (loop_iteration s) = CurrentTicks s.
Proof. exact loop_iteration_queue. Qed.

Lemma iteration_consumes_one_event_witness :
  wf (messages bounced) /\
  contents (messages bounced) = [Msg 2 250] /\
  contents (messages (loop_iteration bounced)) = [].
Proof.
  assert (W : wf (messages bounced)).
  { split; [vm_compute; reflexivity|]. right. vm_compute.
    repeat split; discriminate. }
  split; [exact W|]. split; [vm_compute; reflexivity|].
  exact (proj1 (iteration_consumes_one_event bounced W)).
Defined.

(** *** Switch 1 with the led dark *)

Lemma dispatch_switch1_midnight now s :
  led s = false -> alarm s = midnight ->
  GPIOF_DATA (dispatch now 1 s) = GPIOF_DATA s /\
  displayState (dispatch now 1 s) = DISPLAY_ALARM_INIT /\
  alarm (dispatch now 1 s) = midnight /\
  uart (dispatch now 1 s) = uart s ++ [printTime 0 0] /\
  previousAlarmTicks (dispatch now 1 s) = previousAlarmTicks s /\
  previousSW1Ticks (dispatch now 1 s) = now /\
  ledOnTicks (dispatch now 1 s) = ledOnTicks s.
Proof.
  unfold led. intros L A. unfold dispatch. rewrite L, A. norm.
  repeat split.
Qed.

Lemma dispatch_switch1_countdown now s :
  led s = false -> alarm s <> midnight -> displayState s = DISPLAY_ALARM ->
  GPIOF_DATA (dispatch now 1 s) = GPIOF_DATA s /\
  alarm (dispatch now 1 s) = decrementTime (alarm s) /\
  uart (dispatch now 1 s) =
    uart s ++ [printTime (fst (decrementTime (alarm s)))
                         (snd (decrementTime (alarm s)))] /\
  ledOnTicks (dispatch now 1 s) = ledOnTicks s /\
  (decrementTime (alarm s) = midnight ->
     displayState (dispatch now 1 s) = DISPLAY_ALARM_INIT /\
     previousSW1Ticks (dispatch now 1 s) = now /\
     previousAlarmTicks (dispatch now 1 s) = previousAlarmTicks s) /\
  (decrementTime (alarm s) <> midnight ->
     displayState (dispatch now 1 s) = DISPLAY_ALARM /\
     previousAlarmTicks (dispatch now 1 s) = now /\
     previousSW1Ticks (dispatch now 1 s) = previousSW1Ticks s).
Proof.
  unfold led. intros L A D. apply is_zero_not_midnight in A.
  unfold dispatch. rewrite L, A, D. norm.
  destruct (is_zero (decrementTime (alarm s))) eqn:Z0; norm.
  - apply is_zero_midnight in Z0.
    do 4 (split; [reflexivity|]). split; [auto | intros C; contradiction].
  - apply is_zero_not_midnight in Z0.
    do 4 (split; [reflexivity|]). split; [intros C; contradiction | auto].
Qed.

(** The frame every transition theorem below starts from. *)
Lemma iteration_frame s :
  let mid := dispatch (CurrentTicks s) (accepted s) (snd (poll s)) in
  GPIOF_DATA (loop_iteration s) = GPIOF_DATA mid /\
  previousAlarmTicks (loop_iteration s) = previousAlarmTicks mid /\
  previousSW1Ticks (loop_iteration s) = previousSW1Ticks mid /\
  ledOnTicks (loop_iteration s) = ledOnTicks mid /\
  displayState (loop_iteration s) = displayState mid /\
  alarm (loop_iteration s) = alarm mid /\
  (exists more : list string,
     uart (loop_iteration s) = uart mid ++ more /\
     (length more <= 1)%nat /\
     (displayState mid <> DISPLAY_CLOCK -> more = [])).
Proof.
  intros mid. rewrite loop_iteration_unfold. fold mid.
  destruct (clock_check_keeps (CurrentTicks s) mid)
    as (_ & _ & C1 & C2 & C3 & C4 & _ & _ & _ & C5 & C6).
  do 6 (split; [assumption|]).
  unfold clock_check.
  destruct (elapsed (CurrentTicks s) (previousClockTicks mid) >=? DELAY_TIME_60).
  - cbn [uart]. destruct (Z.eqb_spec (displayState mid) DISPLAY_CLOCK).
    + eexists. split; [reflexivity|]. split; [cbn; lia | contradiction].
    + exists []. rewrite app_nil_r. cbn. auto.
  - exists []. rewrite app_nil_r. cbn. auto.
Qed.

(** X14: an iteration that acts on a press of switch 1 while the led is
    dark and the alarm time is 0:00 moves the display to
    [DISPLAY_ALARM_INIT] from whichever state it was in, stores the sampled
    tick in [previousSW1Ticks] (so a further press restarts the ten seconds),
    prints the alarm time 0:00 and nothing else, and leaves the alarm time
    and the led as they are. *)
Theorem switch1_arms :
  forall s : state,
    accepted s = 1 -> led s = false -> alarm s = midnight ->
    displayState (loop_iteration s) = DISPLAY_ALARM_INIT /\
    previousSW1Ticks (loop_iteration s) = CurrentTicks s /\
    alarm (loop_iteration s) = midnight /\
    led (loop_iteration s) = false /\
    uart (loop_iteration s) = uart s ++ [printTime 0 0] /\
    previousAlarmTicks (loop_iteration s) = previousAlarmTicks s.
Proof.
  intros s A L Z0.
  pose proof (poll_keeps s) as (_ & P1 & P2 & _ & P4 & _ & _ & _ & _ & P9).
  destruct (iteration_frame s) as (F1 & F2 & F3 & _ & F5 & F6 & more & U & _ & Un).
  rewrite A in *.
  destruct (dispatch_switch1_midnight (CurrentTicks s) (snd (poll s)))
    as (D1 & D2 & D3 & D4 & D5 & D6 & _);
    [unfold led; rewrite P1; exact L | rewrite P9; exact Z0 |].
  rewrite (Un ltac:(rewrite D2; discriminate)), app_nil_r in U.
  unfold led. rewrite F1, F2, F3, F5, F6, U, D1, D2, D3, D4, D5, D6, P1, P2, P4.
  repeat split. exact L.
Qed.

Lemma switch1_arms_witness :
  accepted arm_pressed = 1 /\ led arm_pressed = false /\
  alarm arm_pressed = midnight /\
  displayState (loop_iteration arm_pressed) = DISPLAY_ALARM_INIT.
Proof.
  assert (A : accepted arm_pressed = 1) by (vm_compute; reflexivity).
  assert (L : led arm_pressed = false) by (vm_compute; reflexivity).
  assert (Z0 : alarm arm_pressed = midnight) by (vm_compute; reflexivity).
  split; [exact A|]. split; [exact L|]. split; [exact Z0|].
  exact (proj1 (switch1_arms arm_pressed A L Z0)).
Defined.

(** X15: an iteration that acts on a press of switch 1 while the led is
    dark and the display counts down an alarm time other than 0:00
    decrements the alarm time and prints it, and nothing else.  When that
    gives 0:00 the display moves to [DISPLAY_ALARM_INIT] and the sampled tick
    goes to [previousSW1Ticks]; otherwise the display stays and the sampled
    tick goes to [previousAlarmTicks], so the running minute starts again. *)
Theorem switch1_counts_down :
  forall s : state,
    accepted s = 1 -> led s = false ->
    displayState s = DISPLAY_ALARM -> alarm s <> midnight ->
    alarm (loop_iteration s) = decrementTime (alarm s) /\
    led (loop_iteration s) = false /\
    uart (loop_iteration s) =
      uart s ++ [printTime (fst (alarm (loop_iteration s)))
                           (snd (alarm (loop_iteration s)))] /\
    (alarm (loop_iteration s) = midnight ->
       displayState (loop_iteration s) = DISPLAY_ALARM_INIT /\
       previousSW1Ticks (loop_iteration s) = CurrentTicks s /\
       previousAlarmTicks (loop_iteration s) = previousAlarmTicks s) /\
    (alarm (loop_iteration s) <> midnight ->
       displayState (loop_iteration s) = DISPLAY_ALARM /\
       previousAlarmTicks (loop_iteration s) = CurrentTicks s /\
       previousSW1Ticks (loop_iteration s) = previousSW1Ticks s).
Proof.
  intros s A L D N.
  pose proof (poll_keeps s) as (_ & P1 & P2 & _ & P4 & P5 & _ & P7 & _ & P9).
  destruct (iteration_frame s) as (F1 & F2 & F3 & _ & F5 & F6 & more & U & _ & Un).
  rewrite A in *.
  destruct (dispatch_switch1_countdown (CurrentTicks s) (snd (poll s)))
    as (D1 & D2 & D3 & _ & Dz & Dn);
    [unfold led; rewrite P1; exact L | rewrite P9; exact N
    | rewrite P7; exact D |].
  rewrite P9 in *.
  assert (NotClock : displayState (dispatch (CurrentTicks s) 1 (snd (poll s)))
                     <> DISPLAY_CLOCK).
  { destruct (is_zero (decrementTime (alarm s))) eqn:Z0.
    - apply is_zero_midnight in Z0. destruct (Dz Z0) as (-> & _). discriminate.
    - apply is_zero_not_midnight in Z0. destruct (Dn Z0) as (-> & _). discriminate. }
  rewrite (Un NotClock), app_nil_r in U.
  unfold led. rewrite F1, F2, F3, F5, F6, U, D1, D2, D3, P1, P2.
  split; [reflexivity|]. split; [exact L|]. split; [reflexivity|].
  split; intros H.
  - destruct (Dz H) as (-> & -> & ->). rewrite P4. auto.
  - destruct (Dn H) as (-> & -> & ->). rewrite P5. auto.
Qed.

Lemma switch1_counts_down_witness :
  accepted cancel_pressed = 1 /\ led cancel_pressed = false /\
  displayState cancel_pressed = DISPLAY_ALARM /\
  alarm cancel_pressed <> midnight /\
  alarm (loop_iteration cancel_pressed) = midnight /\
  displayState (loop_iteration cancel_pressed) = DISPLAY_ALARM_INIT.
Proof.
  assert (A : accepted cancel_pressed = 1) by (vm_compute; reflexivity).
  assert (L : led cancel_pressed = false) by (vm_compute; reflexivity).
  assert (D : displayState cancel_pressed = DISPLAY_ALARM)
    by (vm_compute; reflexivity).
  assert (N : alarm cancel_pressed <> midnight) by (vm_compute; discriminate).
  assert (Z0 : alarm (loop_iteration cancel_pressed) = midnight)
    by (vm_compute; reflexivity).
  split; [exact A|]. split; [exact L|]. split; [exact D|]. split; [exact N|].
  split; [exact Z0|].
  destruct (switch1_counts_down cancel_pressed A L D N) as (_ & _ & _ & F & _).
  exact (proj1 (F Z0)).
Defined.

(** *** Iterations with nothing to act on *)

Lemma dispatch_arming now sp s :
  sp <> 1 -> sp <> 2 ->
  displayState s = DISPLAY_ALARM_INIT ->
  alarm (dispatch now sp s) = alarm s /\
  previousSW1Ticks (dispatch now sp s) = previousSW1Ticks s /\
  previousAlarmTicks (dispatch now sp s) = previousAlarmTicks s /\
  (DELAY_TIME_10 <= elapsed now (previousSW1Ticks s) ->
     displayState (dispatch now sp s) = DISPLAY_CLOCK /\
     uart (dispatch now sp s) =
       uart s ++ [printTime (fst (clock s)) (snd (clock s))]) /\
  (elapsed now (previousSW1Ticks s) < DELAY_TIME_10 ->
     displayState (dispatch now sp s) = DISPLAY_ALARM_INIT /\
     uart (dispatch now sp s) = uart s).
Proof.
  intros N1 N2 D. unfold dispatch.
  destruct (Z.eqb_spec sp 2); [contradiction|].
  destruct (Z.eqb_spec sp 1); [contradiction|].
  rewrite D. norm.
  destruct (Z.geb_spec (elapsed now (previousSW1Ticks s)) DELAY_TIME_10)
    as [G | G]; norm;
    (do 3 (split; [reflexivity|])); split; intros H; try lia; auto.
Qed.

Lemma dispatch_countdown_not_due now sp s :
  sp <> 1 -> sp <> 2 ->
  displayState s = DISPLAY_ALARM ->
  elapsed now (previousAlarmTicks s) < DELAY_TIME_60 ->
  alarm (dispatch now sp s) = alarm s /\
  displayState (dispatch now sp s) = DISPLAY_ALARM /\
  previousAlarmTicks (dispatch now sp s) = previousAlarmTicks s /\
  uart (dispatch now sp s) = uart s.
Proof.
  intros N1 N2 D H. unfold dispatch.
  destruct (Z.eqb_spec sp 2); [contradiction|].
  destruct (Z.eqb_spec sp 1); [contradiction|].
  rewrite D. norm.
  destruct (Z.geb_spec (elapsed now (previousAlarmTicks s)) DELAY_TIME_60)
    as [G | G]; [lia|]. norm. auto.
Qed.

(** X16: with the display in [DISPLAY_ALARM_INIT] and nothing to act on,
    the iteration goes back to the clock display and prints the clock time
    once [abs (now - previousSW1Ticks)] is 10000 or more; before that it
    stays in [DISPLAY_ALARM_INIT] and prints nothing.  The alarm time is
    left alone either way. *)
Theorem arming_window_expires :
  forall s : state,
    displayState s = DISPLAY_ALARM_INIT ->
    accepted s <> 1 -> accepted s <> 2 ->
    alarm (loop_iteration s) = alarm s /\
    (DELAY_TIME_10 <= elapsed (CurrentTicks s) (previousSW1Ticks s) ->
       displayState (loop_iteration s) = DISPLAY_CLOCK /\
       exists more : list string,
         uart (loop_iteration s) =
           uart s ++ printTime (fst (clock s)) (snd (clock s)) :: more) /\
    (elapsed (CurrentTicks s) (previousSW1Ticks s) < DELAY_TIME_10 ->
       displayState (loop_iteration s) = DISPLAY_ALARM_INIT /\
       previousSW1Ticks (loop_iteration s) = previousSW1Ticks s /\
       uart (loop_iteration s) = uart s).
Proof.
  intros s D N1 N2.
  pose proof (poll_keeps s) as (_ & _ & P2 & _ & _ & P5 & _ & P7 & P8 & P9).
  destruct (iteration_frame s) as (_ & _ & F3 & _ & F5 & F6 & more & U & _ & Un).
  destruct (dispatch_arming (CurrentTicks s) (accepted s) (snd (poll s)) N1 N2)
    as (D1 & D2 & _ & Due & NotDue); [rewrite P7; exact D|].
  rewrite P5 in *. rewrite F3, F5, F6, D1, D2, P9, U.
  split; [reflexivity|]. split; intros H.
  - destruct (Due H) as (-> & ->). rewrite P2, P8.
    split; [reflexivity|]. exists more. rewrite <- app_assoc. reflexivity.
  - destruct (NotDue H) as (E1 & E2).
    rewrite (Un ltac:(rewrite E1; discriminate)), app_nil_r, E1, E2, P2. auto.
Qed.

Lemma reachable_window_over : reachable window_over.
Proof.
  assert (R : reachable armed).
  { apply reach_loop. unfold arm_pressed.
    eapply reach_interrupt; [|apply int_gpiof].
    apply reachable_ticks, reach_start, booted_power_on. }
  assert (E : window_over = ticks (Z.to_nat DELAY_TIME_10) armed).
  { rewrite ticks_jump.
    - rewrite Z2Nat.id by discriminate. reflexivity.
    - vm_compute. discriminate.
    - rewrite Z2Nat.id by discriminate. vm_compute. discriminate. }
  rewrite E. apply reachable_ticks. exact R.
Qed.

Lemma arming_window_expires_witness :
  reachable window_over /\
  displayState window_over = DISPLAY_ALARM_INIT /\
  displayState (loop_iteration window_over) = DISPLAY_CLOCK.
Proof.
  assert (D : displayState window_over = DISPLAY_ALARM_INIT)
    by (vm_compute; reflexivity).
  assert (N1 : accepted window_over <> 1) by (vm_compute; discriminate).
  assert (N2 : accepted window_over <> 2) by (vm_compute; discriminate).
  assert (T : DELAY_TIME_10 <=
              elapsed (CurrentTicks window_over) (previousSW1Ticks window_over))
    by (vm_compute; discriminate).
  split; [exact reachable_window_over|]. split; [exact D|].
  destruct (arming_window_expires window_over D N1 N2) as (_ & F & _).
  exact (proj1 (F T)).
Defined.

(** X17: with the display counting down and nothing to act on, an
    iteration leaves alarm time, display and [previousAlarmTicks] alone and
    prints nothing while [abs (now - previousAlarmTicks)] is below 60000;
    at 60000 or more, when the decremented alarm time is not 0:00, it
    stores that time, prints it and nothing else, stays in [DISPLAY_ALARM]
    and takes the sampled tick as the start of the next minute. *)
Theorem countdown_minute :
  forall s : state,
    displayState s = DISPLAY_ALARM ->
    accepted s <> 1 -> accepted s <> 2 ->
    (elapsed (CurrentTicks s) (previousAlarmTicks s) < DELAY_TIME_60 ->
       alarm (loop_iteration s) = alarm s /\
       displayState (loop_iteration s) = DISPLAY_ALARM /\
       previousAlarmTicks (loop_iteration s) = previousAlarmTicks s /\
       uart (loop_iteration s) = uart s) /\
    (DELAY_TIME_60 <= elapsed (CurrentTicks s) (previousAlarmTicks s) ->
     decrementTime (alarm s) <> midnight ->
       alarm (loop_iteration s) = decrementTime (alarm s) /\
       displayState (loop_iteration s) = DISPLAY_ALARM /\
       previousAlarmTicks (loop_iteration s) = CurrentTicks s /\
       uart (loop_iteration s) =
         uart s ++ [printTime (fst (decrementTime (alarm s)))
                              (snd (decrementTime (alarm s)))]).
Proof.
  intros s D N1 N2.
  pose proof (poll_keeps s) as (_ & _ & P2 & _ & P4 & _ & _ & P7 & _ & P9).
  destruct (iteration_frame s) as (_ & F2 & _ & _ & F5 & F6 & more & U & _ & Un).
  rewrite F2, F5, F6, U. split.
  - intros H.
    destruct (dispatch_countdown_not_due (CurrentTicks s) (accepted s) (snd (poll s)) N1 N2)
      as (D1 & D2 & D3 & D4); [rewrite P7; exact D | rewrite P4; exact H |].
    rewrite (Un ltac:(rewrite D2; discriminate)), app_nil_r.
    rewrite D1, D2, D3, D4, P2, P4, P9. auto.
  - intros H NZ.
    destruct (dispatch_countdown (CurrentTicks s) (accepted s) (snd (poll s)) N1 N2)
      as (D1 & _ & Dn); [rewrite P7; exact D | rewrite P4; exact H |].
    rewrite P9 in *. destruct (Dn NZ) as (D2 & _ & D3 & D4).
    rewrite (Un ltac:(rewrite D2; discriminate)), app_nil_r.
    rewrite D1, D2, D3, D4, P2. auto.
Qed.

Lemma countdown_minute_witness :
  displayState counting_down = DISPLAY_ALARM /\
  elapsed (CurrentTicks counting_down) (previousAlarmTicks counting_down)
    < DELAY_TIME_60 /\
  alarm (loop_iteration counting_down) = alarm counting_down.
Proof.
  assert (D : displayState counting_down = DISPLAY_ALARM)
    by (vm_compute; reflexivity).
  assert (N1 : accepted counting_down <> 1) by (vm_compute; discriminate).
  assert (N2 : accepted counting_down <> 2) by (vm_compute; discriminate).
  assert (T : elapsed (CurrentTicks counting_down)
                      (previousAlarmTicks counting_down) < DELAY_TIME_60)
    by (vm_compute; reflexivity).
  split; [exact D|]. split; [exact T|].
  destruct (countdown_minute counting_down D N1 N2) as (F & _).
  exact (proj1 (F T)).
Defined.

(** X18: an iteration that finds the queue empty and none of the four
    delays run out leaves the whole state as it is: queue, led, timers,
    stamps, times and text. *)
Theorem idle_iteration_changes_nothing :
  forall s : state,
    is_empty (messages s) = true ->
    (displayState s = DISPLAY_ALARM_INIT ->
       elapsed (CurrentTicks s) (previousSW1Ticks s) < DELAY_TIME_10) ->
    (displayState s = DISPLAY_ALARM ->
       elapsed (CurrentTicks s) (previousAlarmTicks s) < DELAY_TIME_60) ->
    (led s = true ->
       elapsed (CurrentTicks s) (ledOnTicks s) < DELAY_TIME_15) ->
    elapsed (CurrentTicks s) (previousClockTicks s) < DELAY_TIME_60 ->
    loop_iteration s = s.
Proof.
  intros s Em A1 A2 A3 A4.
  unfold loop_iteration, poll. rewrite dequeue_empty by assumption.
  unfold debounce. cbn [Z.eqb].
  destruct s as [ticks0 q data out pc pa ps lo spt l1 l2 ds ck al].
  unfold led in A3. fields.
  assert (D : dispatch ticks0 (-1)
                (State ticks0 q data out pc pa ps lo spt l1 l2 ds ck al)
              = State ticks0 q data out pc pa ps lo spt l1 l2 ds ck al).
  { unfold dispatch. cbn [Z.eqb]. fields.
    destruct (Z.eqb_spec ds DISPLAY_ALARM_INIT) as [E1 | E1].
    - specialize (A1 E1). subst ds.
      destruct (Z.geb_spec (elapsed ticks0 ps) DELAY_TIME_10); [lia|].
      norm.
      destruct (led_is_on data); [|reflexivity].
      destruct (Z.geb_spec (elapsed ticks0 lo) DELAY_TIME_15);
        [specialize (A3 eq_refl); lia | reflexivity].
    - cbn [andb]. cbv beta iota zeta.
      destruct (Z.eqb_spec ds DISPLAY_ALARM) as [E2 | E2].
      + specialize (A2 E2).
        destruct (Z.geb_spec (elapsed ticks0 pa) DELAY_TIME_60); [lia|].
        cbn [andb]. cbv beta iota zeta.
        destruct (led_is_on data); [|reflexivity].
        destruct (Z.geb_spec (elapsed ticks0 lo) DELAY_TIME_15);
          [specialize (A3 eq_refl); lia | reflexivity].
      + cbn [andb]. cbv beta iota zeta.
        destruct (led_is_on data); [|reflexivity].
        destruct (Z.geb_spec (elapsed ticks0 lo) DELAY_TIME_15);
          [specialize (A3 eq_refl); lia | reflexivity]. }
  rewrite D. apply clock_check_not_due. exact A4.
Qed.

Lemma idle_iteration_changes_nothing_witness :
  is_empty (messages counting_down) = true /\
  loop_iteration counting_down = counting_down.
Proof.
  assert (Em : is_empty (messages counting_down) = true)
    by (vm_compute; reflexivity).
  split; [exact Em|].
  apply (idle_iteration_changes_nothing counting_down Em).
  - intros D. vm_compute in D. discriminate D.
  - intros _. vm_compute. reflexivity.
  - intros L. vm_compute in L. discriminate L.
  - vm_compute. reflexivity.
Defined.

(** *** What reaches UART0 *)

Lemma dispatch_uart now sp s :
  exists more : list string,
    uart (dispatch now sp s) = uart s ++ more /\ (length more <= 1)%nat.
Proof.
  unfold dispatch.
  repeat branch;
    first [ (exists []; rewrite app_nil_r; split; [reflexivity | cbn; lia])
          | (eexists; split; [reflexivity | cbn; lia]) ].
Qed.

(** X19: text once sent stays: an iteration only appends to what UART0
    has received, at most two times of day (one from the switch or delay
    handling, one from the minute of the clock), and an interrupt sends
    nothing. *)
Theorem uart_only_grows :
  forall s : state,
    (exists more : list string,
       uart (loop_iteration s) = uart s ++ more /\ (length more <= 2)%nat) /\
    (forall s', interrupt s s' -> uart s' = uart s).
Proof.
  intros s. split.
  - pose proof (poll_keeps s) as (_ & _ & P2 & _).
    destruct (iteration_frame s) as (_ & _ & _ & _ & _ & _ & more2 & U & L2 & _).
    destruct (dispatch_uart (CurrentTicks s) (accepted s) (snd (poll s)))
      as (more1 & U1 & L1).
    exists (more1 ++ more2). rewrite U, U1, P2, <- app_assoc.
    split; [reflexivity|]. rewrite length_app. lia.
  - intros s' I. destruct I as [s | mis s]; [reflexivity|].
    unfold GPIOF_Handler. repeat branch; reflexivity.
Qed.

(** *** [GPIOF_Handler] *)

Lemma land_bit_zero x k :
  0 <= k -> (Z.land x (2 ^ k) =? 0) = negb (Z.testbit x k).
Proof.
  intros Hk. destruct (Z.testbit x k) eqn:B; cbn [negb].
  - apply Z.eqb_neq. intros E.
    assert (T : Z.testbit (Z.land x (2 ^ k)) k = true).
    { rewrite Z.land_spec, B, Z.pow2_bits_true by lia. reflexivity. }
    rewrite E, Z.bits_0 in T. discriminate T.
  - apply Z.eqb_eq. apply Z.bits_inj'. intros n Hn.
    rewrite Z.land_spec, Z.bits_0, Z.pow2_bits_eqb by lia.
    destruct (Z.eqb_spec k n) as [<- | _]; [rewrite B; reflexivity|].
    apply andb_false_r.
Qed.

(** X20: one run of [GPIOF_Handler] queues at most one event, stamped
    with the current tick: a press of switch 1 when bit 4 of the interrupt
    status is set, whatever bit 0 says; a press of switch 2 when bit 4 is
    clear and bit 0 is set; nothing when both are clear.  So when both
    switches are flagged in the same status word, switch 2 is left out. *)
Theorem gpiof_handler_queues_one_switch :
  forall (mis : Z) (s : state),
    (Z.testbit mis 4 = true ->
       GPIOF_Handler mis s
         = with_messages (enqueue (CurrentTicks s) 1 (messages s)) s) /\
    (Z.testbit mis 4 = false -> Z.testbit mis 0 = true ->
       GPIOF_Handler mis s
         = with_messages (enqueue (CurrentTicks s) 2 (messages s)) s) /\
    (Z.testbit mis 4 = false -> Z.testbit mis 0 = false ->
       GPIOF_Handler mis s = s).
Proof.
  intros mis s. unfold GPIOF_Handler.
  change 16 with (2 ^ 4). change (Z.land mis 1) with (Z.land mis (2 ^ 0)).
  rewrite !land_bit_zero by lia. rewrite !negb_involutive.
  split; [|split].
  - intros ->. reflexivity.
  - intros -> ->. reflexivity.
  - intros -> ->. reflexivity.
Qed.

Lemma gpiof_handler_queues_one_switch_witness :
  Z.testbit 17 4 = true /\
  contents (messages (GPIOF_Handler 17 (main_start (power_on 0 0))))
    = [Msg 1 0].
Proof.
  assert (B : Z.testbit 17 4 = true) by reflexivity.
  split; [exact B|].
  rewrite (proj1 (gpiof_handler_queues_one_switch 17 (main_start (power_on 0 0))) B).
  reflexivity.
Defined.

(** *** The loop empties the queue *)

Lemma iterations_queue n : forall s,
  wf (messages s) ->
  contents (messages (iterations n s)) = drop n (contents (messages s)) /\
  wf (messages (iterations n s)).
Proof.
  induction n as [|n IH]; intros s W.
  - cbn [iterations]. rewrite drop_0. auto.
  - cbn [iterations].
    destruct (loop_iteration_queue s W) as (C & W' & _).
    destruct (IH (loop_iteration s) W') as (C2 & W2).
    split; [|exact W2]. rewrite C2, C.
    destruct (contents (messages s)); [|reflexivity].
    cbn [tail]. rewrite !drop_nil. reflexivity.
Qed.

(** X21: [n] iterations in a row take the [n] oldest events off the
    queue; as many iterations as there are pending events leave it empty
    with room for fifty pushes again, however many slots had been used
    up. *)
Theorem iterations_drain_queue :
  forall (s : state) (n : nat),
    wf (messages s) ->
    contents (messages (iterations n s)) = drop n (contents (messages s)) /\
    wf (messages (iterations n s)) /\
    ((length (contents (messages s)) <= n)%nat ->
       is_empty (messages (iterations n s)) = true /\
       room (messages (iterations n s)) = MESSAGE_QUEUE_SZ).
Proof.
  intros s n W. destruct (iterations_queue n s W) as (C & W').
  split; [exact C|]. split; [exact W'|]. intros Le.
  rewrite drop_ge in C by exact Le.
  assert (E : is_empty (messages (iterations n s)) = true).
  { destruct (wf_cursors _ W') as [[E _] | [E [F R]]]; [exact E|].
    pose proof (pending_length _ W') as P. rewrite C in P.
    unfold pending in P. rewrite E in P. cbn [length] in P. lia. }
  split; [exact E|]. unfold room. rewrite E. reflexivity.
Qed.

Lemma iterations_drain_queue_witness :
  wf (messages bounced) /\
  (length (contents (messages bounced)) <= 1)%nat /\
  room (messages (iterations 1 bounced)) = MESSAGE_QUEUE_SZ.
Proof.
  assert (W : wf (messages bounced)).
  { split; [vm_compute; reflexivity|]. right. vm_compute.
    repeat split; discriminate. }
  assert (L : (length (contents (messages bounced)) <= 1)%nat)
    by (vm_compute; lia).
  split; [exact W|]. split; [exact L|].
  destruct (iterations_drain_queue bounced 1 W) as (_ & _ & F).
  exact (proj2 (F L)).
Defined.

End TimerOperations.
